(** * Kollny EXPRESS API: the recipe matcher and its request handler

    A shallow embedding of [src/main.py]: the catalog literal, the function
    [simple_recipe_engine] and the handler [get_recipes] of
    [POST /api/recipes], followed by the properties stated about them.

    Conventions of the embedding.
    - A Python [str] is a [string]; a Python [int] is a [Z]; [len] is a
      [nat]; a Python [set] of strings is a [gset string].
    - The built-in methods [str.lower] and [str.strip] are the two fields
      of the class [StrOps]: every general theorem holds for any behaviour
      of these two built-ins.  The instance [ascii_str_ops] gives their
      behaviour on ASCII text and is used to run the code on examples.
    - [list.sort(key=...)] is a stable sort that compares keys with [<]
      only; it is embedded as a stable insertion sort, and
      [stable_sorted_unique] shows that a stable sort has one possible
      output.
    - A raised [HTTPException] is the left summand of the handler's
      result; the persistence collaborator is explicit state. *)

From Stdlib Require Import ZArith Ascii String.
From stdpp Require Import base decidable option list sorting gmap strings.

Local Open Scope string_scope.
Local Open Scope Z_scope.
Local Open Scope nat_scope.
Local Open Scope list_scope.

(** ** Built-in string methods *)

Class StrOps := {
  lower : string → string;   (* str.lower() *)
  strip : string → string    (* str.strip()  *)
}.

(** ** Data model *)

(** One dict of the [catalog] literal. *)
Record CatalogItem := {
  item_title : string;
  item_ingredients : list string;
  item_steps : list string;
  item_time : Z;
  item_difficulty : string;
  item_healthy : bool
}.

(** [class Recipe(BaseModel)] *)
Record Recipe := {
  title : string;
  ingredients : list string;
  missing_ingredients : list string;
  steps : list string;
  cooking_time_minutes : Z;
  difficulty : string;
  is_healthy : bool
}.

#[global] Instance Recipe_eq_dec : EqDecision Recipe.
Proof. solve_decision. Defined.

#[global] Instance CatalogItem_eq_dec : EqDecision CatalogItem.
Proof. solve_decision. Defined.

(** The six dicts of the [catalog] literal of [simple_recipe_engine], in
    the order of the literal. *)
Definition veggie_omelette : CatalogItem :=
  {| item_title := "Veggie Omelette";
     item_ingredients :=
       ["eggs"; "onion"; "tomato"; "spinach"; "olive oil"; "salt"; "pepper"];
     item_steps :=
       ["Whisk eggs with salt and pepper";
        "Saute onion, tomato, spinach in olive oil";
        "Pour eggs and cook until set"];
     item_time := 10;
     item_difficulty := "easy";
     item_healthy := true |}.

Definition garlic_butter_pasta : CatalogItem :=
  {| item_title := "Garlic Butter Pasta";
     item_ingredients :=
       ["pasta"; "garlic"; "butter"; "olive oil"; "salt"; "pepper"; "parsley"];
     item_steps :=
       ["Boil pasta until al dente";
        "Saute garlic in butter and olive oil";
        "Toss pasta with sauce and parsley"];
     item_time := 15;
     item_difficulty := "easy";
     item_healthy := false |}.

Definition chickpea_salad : CatalogItem :=
  {| item_title := "Chickpea Salad";
     item_ingredients :=
       ["chickpeas"; "cucumber"; "tomato"; "onion"; "lemon"; "olive oil";
        "salt"; "pepper"];
     item_steps :=
       ["Chop vegetables";
        "Mix with chickpeas, lemon juice and olive oil";
        "Season and serve"];
     item_time := 8;
     item_difficulty := "easy";
     item_healthy := true |}.

Definition one_pan_chicken_rice : CatalogItem :=
  {| item_title := "One-Pan Chicken & Rice";
     item_ingredients :=
       ["chicken"; "rice"; "onion"; "garlic"; "paprika"; "salt"; "pepper";
        "olive oil"];
     item_steps :=
       ["Brown chicken";
        "Saute aromatics";
        "Add rice and water, simmer until cooked"];
     item_time := 35;
     item_difficulty := "medium";
     item_healthy := true |}.

Definition peanut_stir_fry : CatalogItem :=
  {| item_title := "Peanut Stir-Fry";
     item_ingredients :=
       ["noodles"; "soy sauce"; "garlic"; "ginger"; "peanut butter";
        "mixed vegetables"; "oil"];
     item_steps :=
       ["Stir-fry vegetables with garlic and ginger";
        "Add cooked noodles, soy sauce and peanut butter";
        "Toss to coat"];
     item_time := 15;
     item_difficulty := "medium";
     item_healthy := false |}.

Definition baked_oats : CatalogItem :=
  {| item_title := "Baked Oats";
     item_ingredients :=
       ["oats"; "banana"; "milk"; "honey"; "baking powder"; "cinnamon"];
     item_steps :=
       ["Blend ingredients";
        "Bake until set"];
     item_time := 20;
     item_difficulty := "easy";
     item_healthy := true |}.

Definition catalog : list CatalogItem :=
  [veggie_omelette; garlic_butter_pasta; chickpea_salad;
   one_pan_chicken_rice; peanut_stir_fry; baked_oats].

(** ** [list.sort(key=...)]

    Python compares two key tuples by the first position where they
    differ; the sort uses [<] only and keeps the input order of elements
    whose keys do not compare as smaller. *)

Definition key_lt (a b : nat * Z) : bool :=
  if decide (a.1 = b.1) then bool_decide (a.2 < b.2)%Z
  else bool_decide (a.1 < b.1).

Section stable_sort.
Context {A : Type} (key : A → nat * Z).

(** [x] stood before every element of [l] in the input: it goes past
    the elements whose key is strictly smaller, and no further. *)
Fixpoint sort_insert (x : A) (l : list A) : list A :=
  match l with
  | [] => [x]
  | y :: l' =>
      if key_lt (key y) (key x) then y :: sort_insert x l'
      else x :: y :: l'
  end.

Fixpoint sort_by_key (l : list A) : list A :=
  match l with
  | [] => []
  | x :: l' => sort_insert x (sort_by_key l')
  end.
End stable_sort.

(** ** [simple_recipe_engine] *)

Section engine.
Context `{StrOps}.

(** [{i.strip().lower() for i in pantry if i.strip()}] *)
Definition pantry_set (pantry : list string) : gset string :=
  list_to_set (map (λ i, lower (strip i))
                   (filter (λ i, strip i ≠ EmptyString) pantry)).

(** One iteration of [for item in catalog], on the accumulator
    [results]. *)
Definition engine_step (pantry_set : gset string)
    (results : list Recipe) (item : CatalogItem) : list Recipe :=
  let ing := item_ingredients item in
  let missing := filter (λ x, lower x ∉ pantry_set) ing in
  if bool_decide (length missing ≤ length ing / 2) then
    results ++ [ {| title := item_title item;
                    ingredients := ing;
                    missing_ingredients := missing;
                    steps := item_steps item;
                    cooking_time_minutes := item_time item;
                    difficulty := item_difficulty item;
                    is_healthy := item_healthy item |} ]
  else results.

(** [key=lambda r: (len(r.missing_ingredients), r.cooking_time_minutes)] *)
Definition sort_key (r : Recipe) : nat * Z :=
  (length (missing_ingredients r), cooking_time_minutes r).

(** The body of [simple_recipe_engine] over a given catalog. *)
Definition engine_on (cat : list CatalogItem) (pantry : list string)
    : list Recipe :=
  let pantry_set := pantry_set pantry in
  let results := foldl (engine_step pantry_set) [] cat in
  sort_by_key sort_key results.

Definition simple_recipe_engine (pantry : list string) : list Recipe :=
  engine_on catalog pantry.
End engine.

#[global] Typeclasses Opaque pantry_set.

(** ** The built-ins on ASCII text

    [str.lower] maps [A]..[Z] to [a]..[z]; [str.strip] removes the
    characters Python counts as white space (codes 9 to 13 and 28 to 32 in
    the ASCII range) from both ends. *)

Definition ascii_lower_char (c : ascii) : ascii :=
  let n := nat_of_ascii c in
  if bool_decide (65 ≤ n ∧ n ≤ 90) then ascii_of_nat (n + 32) else c.

Fixpoint ascii_lower (s : string) : string :=
  match s with
  | EmptyString => EmptyString
  | String c s' => String (ascii_lower_char c) (ascii_lower s')
  end.

Definition ascii_isspace (c : ascii) : bool :=
  let n := nat_of_ascii c in
  bool_decide (9 ≤ n ∧ n ≤ 13) || bool_decide (28 ≤ n ∧ n ≤ 32).

Fixpoint ascii_lstrip (s : string) : string :=
  match s with
  | EmptyString => EmptyString
  | String c s' => if ascii_isspace c then ascii_lstrip s' else s
  end.

(** Trailing white space is dropped from the right: a character is kept
    when something is kept after it or when it is not white space. *)
Fixpoint ascii_rstrip (s : string) : string :=
  match s with
  | EmptyString => EmptyString
  | String c s' =>
      match ascii_rstrip s' with
      | EmptyString =>
          if ascii_isspace c then EmptyString else String c EmptyString
      | String c' r => String c (String c' r)
      end
  end.

Definition ascii_strip (s : string) : string :=
  ascii_rstrip (ascii_lstrip s).

(** Strings made of white space only. *)
Fixpoint ascii_all_space (s : string) : bool :=
  match s with
  | EmptyString => true
  | String c s' => ascii_isspace c && ascii_all_space s'
  end.

Definition ascii_str_ops : StrOps :=
  {| lower := ascii_lower; strip := ascii_strip |}.

(** ** The request handler [get_recipes] *)

(** The values a decoded JSON field can hold (numbers are kept to
    integers).  The handler tests [payload.ingredients] with [isinstance],
    so that field is kept as a dynamically typed value; the values that
    pass the validation of the declared type [List[str]], and so reach the
    handler through the route, are those of [valid_ingredients]. *)
#[local] Set Warnings "-register-all".
Inductive pyval :=
| PyNone
| PyBool (b : bool)
| PyInt (z : Z)
| PyStr (s : string)
| PyList (l : list pyval)
| PyDict (d : list (string * pyval)).

(** Python truth value, as used by [or] and [if]. *)
Definition truthy (v : pyval) : bool :=
  match v with
  | PyNone => false
  | PyBool b => b
  | PyInt z => bool_decide (z ≠ 0%Z)
  | PyStr s => bool_decide (s ≠ EmptyString)
  | PyList l => bool_decide (l ≠ [])
  | PyDict d => bool_decide (d ≠ [])
  end.

(** [a or b] *)
Definition py_or (a b : pyval) : pyval := if truthy a then a else b.

Definition isinstance_list (v : pyval) : bool :=
  match v with PyList _ => true | _ => false end.

Definition isinstance_str (v : pyval) : bool :=
  match v with PyStr _ => true | _ => false end.

(** The elements a [for] over the value visits; only lists are iterated
    by the handler, behind [isinstance(pantry, list)]. *)
Definition py_items (v : pyval) : list pyval :=
  match v with PyList l => l | _ => [] end.

(** The strings of a list of [str] values. *)
Definition str_items (v : pyval) : list string :=
  omap (λ i, match i with PyStr s => Some s | _ => None end) (py_items v).

(** [class RecipeRequest(BaseModel)] *)
Record RecipeRequest := {
  req_ingredients : pyval;
  req_healthy_only : bool;
  req_difficulty : option string
}.

(** [HTTPException(status_code=..., detail=...)] *)
Record HTTPException := {
  status_code : Z;
  detail : string
}.

(** What the handler hands back to the framework: a raised
    [HTTPException] or the returned list, sent with status 200. *)
Definition response : Type := HTTPException + list Recipe.

Definition response_status (r : response) : Z :=
  match r with
  | inl e => status_code e
  | inr _ => 200%Z
  end.

(** [request.headers.get] is all the handler uses of the request. *)
Record Request := {
  headers_get : string → option string
}.

(** The keyword arguments of [SearchLog(...)]. *)
Record SearchLogArgs := {
  log_ingredients : list string;
  log_healthy_only : bool;
  log_difficulty : option string;
  log_results_count : nat;
  log_client : option string
}.

(** The persistence collaborator: the modules [schemas] and [database]
    are not part of the source, so their behaviour is a parameter.  A call
    either returns or raises an [Exception]; [create_document] may change
    the store in both cases. *)
Inductive outcome (A : Type) :=
| Returned (a : A)
| Raised.
Arguments Returned {A} a.
Arguments Raised {A}.

Record Collaborator (DB Doc : Type) := {
  (* [from schemas import SearchLog]: the import may raise; so may the
     constructor *)
  import_SearchLog : outcome (SearchLogArgs → outcome Doc);
  (* [create_document(collection, doc)] *)
  create_document : string → Doc → DB → outcome unit * DB
}.
Arguments import_SearchLog {DB Doc} c.
Arguments create_document {DB Doc} c collection doc db.

(** [allowed = {"easy", "medium", "hard"}] *)
Definition allowed : gset string := {[ "easy"; "medium"; "hard" ]}.

(** Lines 146 to 153: the difficulty and healthy-only filters. *)
Definition filter_stage (difficulty_ : option string) (healthy_only : bool)
    (all_results : list Recipe) : response :=
  match
    (match difficulty_ with
     | Some d =>
         (* if difficulty: *)
         if bool_decide (d ≠ EmptyString) then
           if bool_decide (d ∉ allowed) then
             inl {| status_code := 400;
                    detail := "difficulty must be easy|medium|hard" |}
           else inr (filter (λ r, difficulty r = d) all_results)
         else inr all_results
     | None => inr all_results
     end)
  with
  | inl e => inl e
  | inr all_results =>
      if healthy_only then inr (filter (λ r, is_healthy r = true) all_results)
      else inr all_results
  end.

Section handler.
Context `{StrOps} {DB Doc : Type} (collab : Collaborator DB Doc).

(** The body of the [try] block; [Raised] stands for any [Exception]. *)
Definition log_search (pantry : list string) (healthy_only : bool)
    (difficulty_ : option string) (all_results : list Recipe)
    (request : Request) (db : DB) : outcome unit * DB :=
  match import_SearchLog collab with
  | Raised => (Raised, db)
  | Returned SearchLog =>
      match SearchLog
              {| log_ingredients :=
                   map (λ i, lower (strip i))
                       (filter (λ i, strip i ≠ EmptyString) pantry);
                 log_healthy_only := healthy_only;
                 log_difficulty := difficulty_;
                 log_results_count := length all_results;
                 log_client := headers_get request "User-Agent" |}
      with
      | Raised => (Raised, db)
      | Returned log_doc => create_document collab "searchlog" log_doc db
      end
  end.

(** [try: ... except Exception: pass] *)
Definition try_except_pass (body : DB → outcome unit * DB) (db : DB) : DB :=
  match body db with
  | (Returned _, db') => db'
  | (Raised, db') => db'
  end.

Definition get_recipes (payload : RecipeRequest) (request : Request)
    (db : DB) : response * DB :=
  let pantry := py_or (req_ingredients payload) (PyList []) in
  let difficulty_ := req_difficulty payload in
  let healthy_only := req_healthy_only payload in
  if negb (isinstance_list pantry)
     || existsb (λ i, negb (isinstance_str i)) (py_items pantry)
  then
    (inl {| status_code := 400;
            detail := "ingredients must be a list of strings" |}, db)
  else
    let pantry := str_items pantry in
    let all_results := simple_recipe_engine pantry in
    match filter_stage difficulty_ healthy_only all_results with
    | inl e => (inl e, db)
    | inr all_results =>
        let db :=
          try_except_pass
            (log_search pantry healthy_only difficulty_ all_results request)
            db in
        (inr all_results, db)
    end.
End handler.

(** ** Vocabulary of the statements *)

(** Ascending order on the sort keys: first component, then second. *)
Definition key_le (a b : nat * Z) : Prop :=
  a.1 < b.1 ∨ (a.1 = b.1 ∧ (a.2 ≤ b.2)%Z).

(** A pantry string names the ingredient [x] when it is not blank and its
    trimmed, lower-cased form is the lower-cased form of [x]. *)
Definition names `{StrOps} (x : string) (p : string) : Prop :=
  strip p ≠ EmptyString ∧ lower (strip p) = lower x.

(** The catalog ingredients that no pantry string names, in catalog
    order. *)
Definition missing_from `{StrOps} (pantry : list string)
    (ing : list string) : list string :=
  filter (λ x, ¬ Exists (names x) pantry) ing.

(** The [Recipe(...)] the loop builds for an item and its missing
    ingredients. *)
Definition result_of (item : CatalogItem) (missing : list string) : Recipe :=
  {| title := item_title item;
     ingredients := item_ingredients item;
     missing_ingredients := missing;
     steps := item_steps item;
     cooking_time_minutes := item_time item;
     difficulty := item_difficulty item;
     is_healthy := item_healthy item |}.

(** The loop body as a partial function of the catalog item. *)
Definition match_item `{StrOps} (pantry_set : gset string)
    (item : CatalogItem) : option Recipe :=
  let ing := item_ingredients item in
  let missing := filter (λ x, lower x ∉ pantry_set) ing in
  if bool_decide (length missing ≤ length ing / 2) then
    Some (result_of item missing)
  else None.

(** The condition of the filter stage on one result. *)
Definition passes (difficulty_ : option string) (healthy_only : bool)
    (r : Recipe) : Prop :=
  (difficulty_ = None ∨ difficulty_ = Some (difficulty r))
  ∧ (healthy_only = false ∨ is_healthy r = true).

#[global] Instance passes_dec difficulty_ healthy_only r :
  Decision (passes difficulty_ healthy_only r).
Proof. unfold passes. apply _. Defined.

(** A list of [str] values, and the property of being one. *)
Definition str_list (pantry : list string) : pyval :=
  PyList (PyStr <$> pantry).

Definition is_str_list (v : pyval) : Prop :=
  ∃ pantry, v = str_list pantry.

(** The handler's two client errors. *)
Definition bad_ingredients : HTTPException :=
  {| status_code := 400; detail := "ingredients must be a list of strings" |}.

Definition bad_difficulty : HTTPException :=
  {| status_code := 400; detail := "difficulty must be easy|medium|hard" |}.

(** A collaborator whose [schemas] module cannot be imported, and a
    request without headers: enough to run the handler on examples. *)
Definition absent_collaborator : Collaborator unit unit :=
  {| import_SearchLog := Raised;
     create_document := λ _ _ db, (Raised, db) |}.

Definition bare_request : Request := {| headers_get := λ _, None |}.

(** A collaborator that stores every document it is given, and one whose
    [create_document] raises after storing it. *)
Definition recording_collaborator
    : Collaborator (list SearchLogArgs) SearchLogArgs :=
  {| import_SearchLog := Returned (λ args, Returned args);
     create_document := λ _ doc db, (Returned (), db ++ [doc]) |}.

Definition failing_collaborator
    : Collaborator (list SearchLogArgs) SearchLogArgs :=
  {| import_SearchLog := Returned (λ args, Returned args);
     create_document := λ _ doc db, (Raised, db ++ [doc]) |}.

Definition curl_request : Request :=
  {| headers_get := λ h, if decide (h = "User-Agent") then Some "curl/8.5.0"
                         else None |}.

(** Pantries and results used to run the code. *)
Definition omelette_pantry : list string :=
  ["Eggs"; " onion "; "TOMATO"; "spinach"; "olive oil"; "salt"; EmptyString;
   "salt"].

Definition omelette_result : Recipe :=
  result_of veggie_omelette ["pepper"].

Definition chickpea_result : Recipe :=
  result_of chickpea_salad ["chickpeas"; "cucumber"; "lemon"; "pepper"].

Definition omelette_pantry_normal : list string :=
  ["eggs"; "onion"; "tomato"; "spinach"; "olive oil"; "salt"].

Definition full_omelette_pantry : list string :=
  ["eggs"; "onion"; "tomato"; "spinach"; "olive oil"; "salt"; "pepper"].

Definition tie_pantry : list string :=
  ["pasta"; "garlic"; "butter"; "olive oil"; "noodles"; "soy sauce"; "ginger"].

Definition pasta_result : Recipe :=
  result_of garlic_butter_pasta ["salt"; "pepper"; "parsley"].

Definition stir_fry_result : Recipe :=
  result_of peanut_stir_fry ["peanut butter"; "mixed vegetables"; "oil"].

(** ** The diagnostic endpoint [test_database]

    [GET /test] builds a dict, updates it while probing the [database]
    module, and returns it.  What the probe meets is a parameter: the
    import, the attribute lookups on [db] and [list_collection_names] may
    each return or raise. *)

(** An [Exception] met by the probe: whether it is an [ImportError], and
    its [str(e)]. *)
Record PyException := {
  is_import_error : bool;
  exc_str : string
}.

Inductive attempt (A : Type) :=
| Done (a : A)
| Fails (e : PyException).
Arguments Done {A} a.
Arguments Fails {A} e.

(** The object [db] of the [database] module. *)
Record DbHandle := {
  db_hasattr_name : attempt bool;               (* hasattr(db, 'name') *)
  db_get_name : attempt pyval;                  (* db.name *)
  db_list_collection_names : attempt (list string)
}.

(** The slice [s[:n]] of a [str] is a built-in, like [lower] and
    [strip]. *)
Class StrSlice := {
  str_prefix : nat → string → string
}.

Fixpoint ascii_prefix (n : nat) (s : string) : string :=
  match n, s with
  | S n', String c s' => String c (ascii_prefix n' s')
  | _, _ => EmptyString
  end.

Definition ascii_str_slice : StrSlice := {| str_prefix := ascii_prefix |}.

(** The dict [response], one field per key. *)
Record DiagResponse := {
  backend : string;
  database : string;
  database_url : option string;
  database_name : pyval;
  connection_status : string;
  collections : list string
}.

(** [response[key] = value] *)
Definition set_database (v : string) (r : DiagResponse) : DiagResponse :=
  {| backend := backend r; database := v;
     database_url := database_url r; database_name := database_name r;
     connection_status := connection_status r;
     collections := collections r |}.

Definition set_database_url (v : option string) (r : DiagResponse)
    : DiagResponse :=
  {| backend := backend r; database := database r;
     database_url := v; database_name := database_name r;
     connection_status := connection_status r;
     collections := collections r |}.

Definition set_database_name (v : pyval) (r : DiagResponse) : DiagResponse :=
  {| backend := backend r; database := database r;
     database_url := database_url r; database_name := v;
     connection_status := connection_status r;
     collections := collections r |}.

Definition set_connection_status (v : string) (r : DiagResponse)
    : DiagResponse :=
  {| backend := backend r; database := database r;
     database_url := database_url r; database_name := database_name r;
     connection_status := v;
     collections := collections r |}.

Definition set_collections (v : list string) (r : DiagResponse)
    : DiagResponse :=
  {| backend := backend r; database := database r;
     database_url := database_url r; database_name := database_name r;
     connection_status := connection_status r;
     collections := v |}.

(** The truth value of [os.getenv(key)]: set, and not to the empty
    string. *)
Definition env_truthy (getenv : string → option string) (key : string)
    : bool :=
  match getenv key with
  | Some v => bool_decide (v ≠ EmptyString)
  | None => false
  end.

Section diagnostics.
Context `{StrSlice}.

(** The two [except] clauses of the outer [try], on the dict as it is
    when the exception is raised. *)
Definition probe_failed (e : PyException) (response : DiagResponse)
    : DiagResponse :=
  if is_import_error e then
    set_database
      "❌ Database module not found (run enable-database first)" response
  else
    set_database ("❌ Error: " +:+ str_prefix 50 (exc_str e)) response.

(** The outer [try] statement with its handlers. *)
Definition probe_database (import_db : attempt (option DbHandle))
    (response : DiagResponse) : DiagResponse :=
  match import_db with
  | Fails e => probe_failed e response
  | Done None =>
      set_database "⚠️  Available but not initialized" response
  | Done (Some db) =>
      let response := set_database "✅ Available" response in
      let response := set_database_url (Some "✅ Configured") response in
      match db_hasattr_name db with
      | Fails e => probe_failed e response
      | Done has_name =>
          match (if has_name then db_get_name db
                 else Done (PyStr "✅ Connected")) with
          | Fails e => probe_failed e response
          | Done name =>
              let response := set_database_name name response in
              let response := set_connection_status "Connected" response in
              match db_list_collection_names db with
              | Done names =>
                  let response := set_collections (take 10 names) response in
                  set_database "✅ Connected & Working" response
              | Fails e =>
                  set_database
                    ("⚠️  Connected but Error: "
                     +:+ str_prefix 50 (exc_str e)) response
              end
          end
      end
  end.

Definition test_database (import_db : attempt (option DbHandle))
    (getenv : string → option string) : DiagResponse :=
  let response :=
    {| backend := "✅ Running";
       database := "❌ Not Available";
       database_url := None;
       database_name := PyNone;
       connection_status := "Not Connected";
       collections := [] |} in
  let response := probe_database import_db response in
  let response :=
    set_database_url
      (Some (if env_truthy getenv "DATABASE_URL" then "✅ Set"
             else "❌ Not Set")) response in
  let response :=
    set_database_name
      (PyStr (if env_truthy getenv "DATABASE_NAME" then "✅ Set"
              else "❌ Not Set")) response in
  response.
End diagnostics.

(** The value the probe puts under [database_name]: [db.name] when
    [hasattr] finds it, a fixed text otherwise; either lookup may
    raise. *)
Definition name_lookup (db : DbHandle) : attempt pyval :=
  match db_hasattr_name db with
  | Fails e => Fails e
  | Done has_name =>
      if has_name then db_get_name db else Done (PyStr "✅ Connected")
  end.

(** A reachable database with twelve collections, and an environment
    with [DATABASE_URL] set and [DATABASE_NAME] set to the empty
    string. *)
Definition twelve_collections : list string :=
  ["c01"; "c02"; "c03"; "c04"; "c05"; "c06"; "c07"; "c08"; "c09"; "c10";
   "c11"; "c12"].

Definition live_db : DbHandle :=
  {| db_hasattr_name := Done true;
     db_get_name := Done (PyStr "kollny");
     db_list_collection_names := Done twelve_collections |}.

Definition sample_env (key : string) : option string :=
  if decide (key = "DATABASE_URL") then Some "mongodb://localhost:27017"
  else if decide (key = "DATABASE_NAME") then Some EmptyString
  else None.

(** ** The request boundary

    The route is declared as [get_recipes(payload: RecipeRequest, ...)]:
    the framework validates the decoded body against the model before it
    calls the handler.  [main.py] registers no handler for validation
    errors, so a body that fails validation is answered by the framework
    itself, with FastAPI's status 422, and [get_recipes] does not run. *)






(** ** Further vocabulary *)

(** The pantry the handler passes to the matcher. *)
Definition cleaned_pantry (payload : RecipeRequest) : list string :=
  str_items (py_or (req_ingredients payload) (PyList [])).

(** The difficulty the filter stage acts on: the guard [if difficulty:]
    skips the empty string. *)
Definition effective_difficulty (difficulty_ : option string)
    : option string :=
  match difficulty_ with
  | Some d => if bool_decide (d ≠ EmptyString) then Some d else None
  | None => None
  end.

(** The keyword arguments the handler passes to [SearchLog]. *)
Definition search_log_args `{StrOps} (pantry : list string)
    (healthy_only : bool) (difficulty_ : option string)
    (results : list Recipe) (request : Request) : SearchLogArgs :=
  {| log_ingredients :=
       map (λ i, lower (strip i))
           (filter (λ i, strip i ≠ EmptyString) pantry);
     log_healthy_only := healthy_only;
     log_difficulty := difficulty_;
     log_results_count := length results;
     log_client := headers_get request "User-Agent" |}.

(** ** The sort *)

Lemma key_lt_spec a b :
  key_lt a b = true ↔ a.1 < b.1 ∨ (a.1 = b.1 ∧ (a.2 < b.2)%Z).
Proof.
  unfold key_lt. destruct (decide (a.1 = b.1)) as [E|E].
  - rewrite bool_decide_eq_true. split; [auto | intros [?|[_ ?]]; [lia | done]].
  - rewrite bool_decide_eq_true. split; [auto | intros [?|[? _]]; done].
Qed.

Lemma key_lt_false a b : key_lt b a = false ↔ key_le a b.
Proof.
  rewrite <- not_true_iff_false, key_lt_spec. unfold key_le.
  destruct a as [a1 a2], b as [b1 b2]; simpl. lia.
Qed.

Lemma key_lt_le a b : key_lt a b = true → key_le a b.
Proof. rewrite key_lt_spec. unfold key_le. lia. Qed.

#[local] Instance key_le_trans : Transitive key_le.
Proof. intros [??] [??] [??]; unfold key_le; simpl; lia. Qed.

Lemma key_le_antisym a b : key_le a b → key_le b a → a = b.
Proof.
  destruct a as [a1 a2], b as [b1 b2]; unfold key_le; simpl.
  intros ??. f_equal; lia.
Qed.

Section stable_sort_facts.
Context {A : Type} (key : A → nat * Z).

Let R (x y : A) : Prop := key_le (key x) (key y).

Lemma sort_insert_perm x l : sort_insert key x l ≡ₚ x :: l.
Proof.
  induction l as [|y l IH]; simpl; [done|].
  destruct (key_lt (key y) (key x)); [|done].
  rewrite IH. apply Permutation_swap.
Qed.

Lemma sort_by_key_perm l : sort_by_key key l ≡ₚ l.
Proof.
  induction l as [|x l IH]; simpl; [done|].
  by rewrite sort_insert_perm, IH.
Qed.

Lemma sort_insert_sorted x l :
  Sorted R l → Sorted R (sort_insert key x l).
Proof.
  induction 1 as [|y l Hl IH Hhd]; simpl.
  - repeat constructor.
  - destruct (key_lt (key y) (key x)) eqn:E.
    + constructor; [done|].
      destruct Hhd as [|z l Hyz]; simpl in *.
      * constructor. by apply key_lt_le.
      * destruct (key_lt (key z) (key x)); constructor;
          [done | by apply key_lt_le].
    + constructor; [by constructor|].
      constructor. by apply key_lt_false.
Qed.

Lemma sort_by_key_sorted l : StronglySorted R (sort_by_key key l).
Proof.
  apply Sorted_StronglySorted.
  { intros x y z. unfold R. apply key_le_trans. }
  induction l as [|x l IH]; simpl; [constructor|].
  by apply sort_insert_sorted.
Qed.

(** Stability: the elements of any one key keep their input order. *)
Lemma sort_insert_stable k x l :
  filter (λ a, key a = k) (sort_insert key x l)
  = filter (λ a, key a = k) (x :: l).
Proof.
  induction l as [|y l IH]; simpl; [done|].
  destruct (key_lt (key y) (key x)) eqn:E; [|done].
  rewrite !filter_cons in *. rewrite IH.
  destruct (decide (key x = k)) as [Hx|Hx]; [|done].
  destruct (decide (key y = k)) as [Hy|Hy]; [|done].
  exfalso. rewrite Hx, Hy in E. apply key_lt_spec in E. lia.
Qed.

Lemma sort_by_key_stable k l :
  filter (λ a, key a = k) (sort_by_key key l)
  = filter (λ a, key a = k) l.
Proof.
  induction l as [|x l IH]; simpl; [done|].
  by rewrite sort_insert_stable, !filter_cons, IH.
Qed.

(** A sorted list is fixed by its subsequences of equal keys: whatever
    algorithm [list.sort] runs, a stable sort has one possible output. *)
Lemma stable_sorted_unique (l1 l2 : list A) :
  StronglySorted R l1 → StronglySorted R l2 →
  (∀ k, filter (λ a, key a = k) l1 = filter (λ a, key a = k) l2) →
  l1 = l2.
Proof.
  intros Hs1. revert l2.
  induction Hs1 as [|x l1 Hs1 IH Hx]; intros l2 Hs2 Hf.
  - destruct l2 as [|y l2]; [done|].
    specialize (Hf (key y)). rewrite filter_cons, decide_True in Hf by done.
    discriminate Hf.
  - destruct l2 as [|y l2].
    { specialize (Hf (key x)). rewrite filter_cons, decide_True in Hf by done.
      discriminate Hf. }
    inversion Hs2 as [|? ? Hs2' Hy]; subst.
    rewrite Forall_forall in Hx. rewrite Forall_forall in Hy.
    assert (key y = key x) as Hk.
    { destruct (decide (key y = key x)) as [|Hne]; [done|]. exfalso.
      pose proof (Hf (key y)) as Hfy. rewrite !filter_cons in Hfy.
      rewrite decide_False in Hfy by (intros E; by apply Hne).
      rewrite decide_True in Hfy by done.
      assert (y ∈ filter (λ a, key a = key y) l1) as Hin
        by (rewrite Hfy; apply list_elem_of_here).
      apply list_elem_of_filter in Hin as [_ Hin].
      pose proof (Hf (key x)) as Hfx. rewrite !filter_cons in Hfx.
      rewrite decide_True in Hfx by done.
      rewrite decide_False in Hfx by done.
      assert (x ∈ filter (λ a, key a = key x) l2) as Hin2
        by (rewrite <- Hfx; apply list_elem_of_here).
      apply list_elem_of_filter in Hin2 as [_ Hin2].
      apply Hne. apply key_le_antisym; [by apply Hy | by apply Hx]. }
    pose proof (Hf (key x)) as Hfx. rewrite !filter_cons in Hfx.
    rewrite decide_True in Hfx by done. rewrite decide_True in Hfx by done.
    injection Hfx as -> _. f_equal. apply IH; [done|].
    intros k. specialize (Hf k). rewrite !filter_cons in Hf.
    destruct (decide (key y = k)); [by injection Hf | done].
Qed.
End stable_sort_facts.

(** ** The matcher *)

Lemma filter_sublist_mono {A} (P : A → Prop) `{!∀ x, Decision (P x)}
    (l1 l2 : list A) :
  l1 `sublist_of` l2 → filter P l1 `sublist_of` filter P l2.
Proof.
  induction 1 as [|x l1 l2 _ IH|x l1 l2 _ IH]; [done| |];
    rewrite ?filter_cons; destruct (decide (P x));
    auto using sublist_skip, sublist_cons.
Qed.

Lemma catalog_titles_distinct : NoDup (item_title <$> catalog).
Proof. apply (bool_decide_unpack _). by vm_compute. Qed.

Lemma catalog_title_inj (item item' : CatalogItem) :
  item ∈ catalog → item' ∈ catalog →
  item_title item = item_title item' → item = item'.
Proof.
  intros Hi Hi'.
  assert (Forall (λ i, Forall (λ i', item_title i = item_title i' → i = i')
                              catalog) catalog) as Hall.
  { apply (bool_decide_unpack _). by vm_compute. }
  rewrite Forall_forall in Hall. specialize (Hall _ Hi).
  rewrite Forall_forall in Hall. exact (Hall _ Hi').
Qed.

Section engine_facts.
Context `{StrOps}.

Lemma elem_of_pantry_set (pantry : list string) (s : string) :
  s ∈ pantry_set pantry ↔
  ∃ p, p ∈ pantry ∧ strip p ≠ EmptyString ∧ s = lower (strip p).
Proof.
  unfold pantry_set. rewrite elem_of_list_to_set, list_elem_of_In, in_map_iff.
  split.
  - intros (p & <- & Hp).
    apply list_elem_of_In, list_elem_of_filter in Hp as [Hne Hp].
    by exists p.
  - intros (p & Hp & Hne & ->). exists p. split; [done|].
    apply list_elem_of_In, list_elem_of_filter. done.
Qed.

Lemma not_elem_of_pantry_set (pantry : list string) (x : string) :
  lower x ∉ pantry_set pantry ↔ ¬ Exists (names x) pantry.
Proof.
  rewrite elem_of_pantry_set, Exists_exists. unfold names.
  split; intros Hn (p & Hp & Hne & Heq); apply Hn; by exists p.
Qed.

Lemma missing_filter (pantry ing : list string) :
  filter (λ x, lower x ∉ pantry_set pantry) ing = missing_from pantry ing.
Proof.
  unfold missing_from. apply list_filter_iff.
  intros x. apply not_elem_of_pantry_set.
Qed.

Lemma engine_step_match ps results item :
  engine_step ps results item = results ++ option_list (match_item ps item).
Proof.
  unfold engine_step, match_item. simpl.
  case_bool_decide; simpl; by rewrite ?app_nil_r.
Qed.

(** The [for] loop collects the matching items in catalog order. *)
Lemma engine_loop ps cat acc :
  foldl (engine_step ps) acc cat = acc ++ omap (match_item ps) cat.
Proof.
  revert acc. induction cat as [|item cat IH]; intros acc; simpl.
  - by rewrite app_nil_r.
  - rewrite IH, engine_step_match.
    destruct (match_item ps item); simpl; by rewrite <- ?app_assoc, ?app_nil_r.
Qed.

Lemma engine_on_eq cat pantry :
  engine_on cat pantry
  = sort_by_key sort_key (omap (match_item (pantry_set pantry)) cat).
Proof. unfold engine_on. simpl. by rewrite engine_loop. Qed.

Lemma elem_of_engine_on cat pantry r :
  r ∈ engine_on cat pantry ↔
  ∃ item, item ∈ cat ∧ match_item (pantry_set pantry) item = Some r.
Proof.
  rewrite engine_on_eq, sort_by_key_perm. apply list_elem_of_omap.
Qed.

Lemma match_item_Some ps item r :
  match_item ps item = Some r ↔
  length (filter (λ x, lower x ∉ ps) (item_ingredients item))
    ≤ length (item_ingredients item) / 2
  ∧ r = result_of item
          (filter (λ x, lower x ∉ ps) (item_ingredients item)).
Proof.
  unfold match_item. simpl. case_bool_decide as Hb; split.
  - by intros [= <-].
  - by intros [_ ->].
  - done.
  - by intros [? _].
Qed.

Lemma match_item_titles ps cat :
  title <$> omap (match_item ps) cat `sublist_of` item_title <$> cat.
Proof.
  induction cat as [|item cat IH]; simpl; [done|].
  destruct (match_item ps item) as [r|] eqn:E; simpl.
  - apply match_item_Some in E as [_ ->]. by constructor.
  - by constructor.
Qed.

Lemma engine_on_same_set cat pantry pantry' :
  pantry_set pantry = pantry_set pantry' →
  engine_on cat pantry = engine_on cat pantry'.
Proof. unfold engine_on. by intros ->. Qed.
End engine_facts.

(** C1. Every result of the matcher belongs to a catalog entry, carries
    that entry's ingredient list unchanged, and its [missing_ingredients]
    are exactly the entries of that list that no non-blank pantry string
    names after trimming and lower-casing, in the catalog's order and
    casing. *)
Theorem missing_ingredients_exact `{StrOps} (pantry : list string)
    (r : Recipe) :
  r ∈ simple_recipe_engine pantry →
  ∃ item, item ∈ catalog
    ∧ title r = item_title item
    ∧ ingredients r = item_ingredients item
    ∧ missing_ingredients r
      = filter (λ x, lower x ∉ pantry_set pantry) (item_ingredients item)
    ∧ missing_ingredients r = missing_from pantry (item_ingredients item)
    ∧ missing_ingredients r `sublist_of` item_ingredients item.
Proof.
  intros Hr. apply elem_of_engine_on in Hr as (item & Hin & Hm).
  apply match_item_Some in Hm as [_ ->]. simpl.
  exists item. rewrite <- missing_filter.
  repeat split; try done. apply sublist_filter.
Qed.

Lemma missing_ingredients_exact_witness :
  omelette_result ∈ @simple_recipe_engine ascii_str_ops omelette_pantry
  ∧ ∃ item, item ∈ catalog
    ∧ title omelette_result = item_title item
    ∧ ingredients omelette_result = item_ingredients item
    ∧ missing_ingredients omelette_result
      = filter (λ x, @lower ascii_str_ops x
                     ∉ @pantry_set ascii_str_ops omelette_pantry)
               (item_ingredients item)
    ∧ missing_ingredients omelette_result
      = @missing_from ascii_str_ops omelette_pantry (item_ingredients item)
    ∧ missing_ingredients omelette_result `sublist_of` item_ingredients item.
Proof.
  assert (omelette_result
          ∈ @simple_recipe_engine ascii_str_ops omelette_pantry) as Hin.
  { vm_compute. apply list_elem_of_here. }
  split; [exact Hin|].
  exact (@missing_ingredients_exact ascii_str_ops omelette_pantry
           omelette_result Hin).
Defined.

(** C2. A catalog entry has a result in the matcher's output exactly when
    the number of its missing ingredients is at most half its ingredient
    count, rounded down; hence every result satisfies that bound. *)
Theorem half_coverage_rule `{StrOps} (pantry : list string) :
  (∀ item, item ∈ catalog →
     (∃ r, r ∈ simple_recipe_engine pantry ∧ title r = item_title item) ↔
     length (filter (λ x, lower x ∉ pantry_set pantry)
                    (item_ingredients item))
       ≤ length (item_ingredients item) / 2)
  ∧ (∀ r, r ∈ simple_recipe_engine pantry →
       length (missing_ingredients r) ≤ length (ingredients r) / 2).
Proof.
  split.
  - intros item Hitem. split.
    + intros (r & Hr & Htitle).
      apply elem_of_engine_on in Hr as (item' & Hitem' & Hm).
      apply match_item_Some in Hm as [Hle ->]. simpl in Htitle.
      by rewrite <- (catalog_title_inj item' item Hitem' Hitem Htitle).
    + intros Hle.
      exists (result_of item
                (filter (λ x, lower x ∉ pantry_set pantry)
                        (item_ingredients item))).
      split; [|done].
      apply elem_of_engine_on. exists item. split; [done|].
      by apply match_item_Some.
  - intros r Hr. apply elem_of_engine_on in Hr as (item & _ & Hm).
    by apply match_item_Some in Hm as [Hle ->].
Qed.

Lemma half_coverage_rule_witness :
  veggie_omelette ∈ catalog
  ∧ omelette_result ∈ @simple_recipe_engine ascii_str_ops omelette_pantry
  ∧ ((∃ r, r ∈ @simple_recipe_engine ascii_str_ops omelette_pantry
           ∧ title r = item_title veggie_omelette) ↔
     length (filter (λ x, @lower ascii_str_ops x
                          ∉ @pantry_set ascii_str_ops omelette_pantry)
                    (item_ingredients veggie_omelette))
       ≤ length (item_ingredients veggie_omelette) / 2)
  ∧ length (missing_ingredients omelette_result)
      ≤ length (ingredients omelette_result) / 2.
Proof.
  assert (veggie_omelette ∈ catalog) as Hitem by apply list_elem_of_here.
  assert (omelette_result
          ∈ @simple_recipe_engine ascii_str_ops omelette_pantry) as Hin.
  { vm_compute. apply list_elem_of_here. }
  destruct (@half_coverage_rule ascii_str_ops omelette_pantry) as [Hiff Hle].
  exact (conj Hitem (conj Hin (conj (Hiff _ Hitem) (Hle _ Hin)))).
Defined.

Lemma sort_key_eq (r : Recipe) (n : nat) (t : Z) :
  sort_key r = (n, t)
  ↔ length (missing_ingredients r) = n ∧ cooking_time_minutes r = t.
Proof. unfold sort_key. split; [by intros [= -> ->] | by intros [-> ->]]. Qed.

Lemma sort_key_tied (r1 r2 : Recipe) :
  sort_key r1 = sort_key r2
  ↔ length (missing_ingredients r1) = length (missing_ingredients r2)
    ∧ cooking_time_minutes r1 = cooking_time_minutes r2.
Proof. unfold sort_key at 2. apply sort_key_eq. Qed.

(** C3. The matcher's output is sorted ascending by the pair (number of
    missing ingredients, cooking time in minutes): of two results the
    earlier has fewer missing ingredients, or as many and a cooking time
    that is not larger.  The results with a given number of missing
    ingredients and a given cooking time keep the order in which the loop
    over the catalog produced them, so two results tied on both appear in
    the order of their titles in the catalog, whose titles are pairwise
    distinct.  These two properties leave one possible output. *)
Theorem engine_output_order `{StrOps} (pantry : list string) :
  StronglySorted
    (λ r1 r2,
       length (missing_ingredients r1) < length (missing_ingredients r2)
       ∨ (length (missing_ingredients r1) = length (missing_ingredients r2)
          ∧ (cooking_time_minutes r1 ≤ cooking_time_minutes r2)%Z))
    (simple_recipe_engine pantry)
  ∧ (∀ (n : nat) (t : Z),
       filter (λ r, length (missing_ingredients r) = n
                    ∧ cooking_time_minutes r = t)
              (simple_recipe_engine pantry)
       = filter (λ r, length (missing_ingredients r) = n
                      ∧ cooking_time_minutes r = t)
                (omap (match_item (pantry_set pantry)) catalog))
  ∧ (∀ r1 r2, [r1; r2] `sublist_of` simple_recipe_engine pantry →
       length (missing_ingredients r1) = length (missing_ingredients r2) →
       cooking_time_minutes r1 = cooking_time_minutes r2 →
       [title r1; title r2] `sublist_of` item_title <$> catalog)
  ∧ NoDup (item_title <$> catalog)
  ∧ (∀ l : list Recipe,
       StronglySorted
         (λ r1 r2,
            length (missing_ingredients r1) < length (missing_ingredients r2)
            ∨ (length (missing_ingredients r1)
               = length (missing_ingredients r2)
               ∧ (cooking_time_minutes r1 ≤ cooking_time_minutes r2)%Z))
         l →
       (∀ (n : nat) (t : Z),
          filter (λ r, length (missing_ingredients r) = n
                       ∧ cooking_time_minutes r = t) l
          = filter (λ r, length (missing_ingredients r) = n
                         ∧ cooking_time_minutes r = t)
                   (omap (match_item (pantry_set pantry)) catalog)) →
       l = simple_recipe_engine pantry).
Proof.
  assert (∀ (n : nat) (t : Z) (l : list Recipe),
            filter (λ r, length (missing_ingredients r) = n
                         ∧ cooking_time_minutes r = t) l
            = filter (λ r, sort_key r = (n, t)) l) as Hfilter.
  { intros n t l. apply list_filter_iff. intros r.
    symmetry. apply sort_key_eq. }
  unfold simple_recipe_engine. rewrite engine_on_eq.
  split; [exact (sort_by_key_sorted sort_key _)|].
  split; [intros n t; rewrite !Hfilter; apply sort_by_key_stable|].
  split; [|split; [apply catalog_titles_distinct|]].
  2:{ intros l Hsorted Hstable.
      apply (stable_sorted_unique sort_key);
        [exact Hsorted | apply sort_by_key_sorted|].
      intros [n t]. rewrite sort_by_key_stable, <- !Hfilter. apply Hstable. }
  intros r1 r2 Hsub Hlen Htime.
  assert (sort_key r1 = sort_key r2) as Hkey by (by apply sort_key_tied).
  apply (filter_sublist_mono (λ r, sort_key r = sort_key r2)) in Hsub.
  rewrite sort_by_key_stable in Hsub.
  rewrite !filter_cons, filter_nil in Hsub.
  rewrite decide_True in Hsub by done. rewrite decide_True in Hsub by done.
  transitivity (title <$> omap (match_item (pantry_set pantry)) catalog);
    [|apply match_item_titles].
  change [title r1; title r2] with (title <$> [r1; r2]).
  apply fmap_sublist. etransitivity; [exact Hsub|]. apply sublist_filter.
Qed.

Lemma engine_output_order_witness :
  [pasta_result; stir_fry_result]
    `sublist_of` @simple_recipe_engine ascii_str_ops tie_pantry
  ∧ length (missing_ingredients pasta_result)
    = length (missing_ingredients stir_fry_result)
  ∧ cooking_time_minutes pasta_result = cooking_time_minutes stir_fry_result
  ∧ [title pasta_result; title stir_fry_result]
      `sublist_of` item_title <$> catalog.
Proof.
  assert ([pasta_result; stir_fry_result]
            `sublist_of` @simple_recipe_engine ascii_str_ops tie_pantry)
    as Hsub.
  { vm_compute. reflexivity. }
  assert (length (missing_ingredients pasta_result)
          = length (missing_ingredients stir_fry_result)) as Hlen
    by reflexivity.
  assert (cooking_time_minutes pasta_result
          = cooking_time_minutes stir_fry_result) as Htime by reflexivity.
  destruct (@engine_output_order ascii_str_ops tie_pantry)
    as (_ & _ & Hties & _ & _).
  exact (conj Hsub (conj Hlen (conj Htime (Hties _ _ Hsub Hlen Htime)))).
Defined.

(** The spec's example: with every omelette ingredient in the pantry,
    the omelette comes first with nothing missing. *)
Example full_omelette_pantry_first :
  head (@simple_recipe_engine ascii_str_ops full_omelette_pantry)
  = Some (result_of veggie_omelette []).
Proof. by vm_compute. Qed.

Lemma filter_all {A} (P : A → Prop) `{!∀ x, Decision (P x)} (l : list A) :
  Forall P l → filter P l = l.
Proof.
  induction 1 as [|x l Hx _ IH]; [done|].
  by rewrite filter_cons, decide_True, IH.
Qed.

Lemma pantry_set_nil `{StrOps} : pantry_set [] = ∅.
Proof. done. Qed.

Lemma missing_all_of_empty `{StrOps} (ing : list string) :
  filter (λ x, lower x ∉ pantry_set []) ing = ing.
Proof.
  apply filter_all, Forall_forall. intros x _.
  rewrite pantry_set_nil. apply not_elem_of_empty.
Qed.

(** C8. Every catalog entry has at least six ingredients; for the empty
    pantry all of them are missing, which is more than half, so the
    matcher returns the empty list. *)
Theorem empty_pantry_no_results `{StrOps} :
  Forall (λ item, 6 ≤ length (item_ingredients item)) catalog
  ∧ Forall (λ item,
       filter (λ x, lower x ∉ pantry_set []) (item_ingredients item)
       = item_ingredients item
       ∧ ¬ length (item_ingredients item)
           ≤ length (item_ingredients item) / 2)
      catalog
  ∧ simple_recipe_engine [] = [].
Proof.
  assert (Forall (λ item, 6 ≤ length (item_ingredients item)) catalog)
    as Hsix.
  { apply (bool_decide_unpack _). by vm_compute. }
  assert (∀ n, 6 ≤ n → ¬ n ≤ n / 2) as Hhalf.
  { intros n Hn Hle. pose proof (Nat.div_lt n 2). lia. }
  split; [exact Hsix|]. split.
  - eapply Forall_impl; [exact Hsix|]. intros item Hlen.
    split; [apply missing_all_of_empty | by apply Hhalf].
  - unfold simple_recipe_engine. rewrite engine_on_eq.
    assert (omap (match_item (pantry_set [])) catalog = []) as ->; [|done].
    induction Hsix as [|item cat Hlen _ IH]; [done|].
    change (omap ?f (item :: cat))
      with (match f item with
            | Some r => r :: omap f cat
            | None => omap f cat
            end).
    destruct (match_item (pantry_set []) item) as [r|] eqn:E; [|exact IH].
    apply match_item_Some in E as [Hle _].
    rewrite missing_all_of_empty in Hle. by apply Hhalf in Hle.
Qed.

(** ** The handler *)

Lemma elem_of_allowed (d : string) :
  d ∈ allowed ↔ d = "easy" ∨ d = "medium" ∨ d = "hard".
Proof. unfold allowed. rewrite !elem_of_union, !elem_of_singleton. tauto. Qed.

Lemma str_items_str_list (pantry : list string) :
  str_items (str_list pantry) = pantry.
Proof.
  unfold str_items, str_list. simpl.
  induction pantry as [|s pantry IH]; [done|]. simpl. by f_equal.
Qed.

Lemma str_list_check (pantry : list string) :
  existsb (λ i, negb (isinstance_str i)) (py_items (str_list pantry)) = false.
Proof. simpl. induction pantry as [|s pantry IH]; [done|]. exact IH. Qed.

Lemma py_or_str_list (pantry : list string) :
  py_or (str_list pantry) (PyList []) = str_list pantry.
Proof. destruct pantry; reflexivity. Qed.


Section handler_facts.
Context `{StrOps} {DB Doc : Type} (collab : Collaborator DB Doc).

(** The response to a well-formed list of strings is the filter stage
    applied to the matcher's output. *)
Lemma get_recipes_str_list pantry healthy_only difficulty_ request db :
  (get_recipes collab
     {| req_ingredients := str_list pantry;
        req_healthy_only := healthy_only;
        req_difficulty := difficulty_ |} request db).1
  = filter_stage difficulty_ healthy_only (simple_recipe_engine pantry).
Proof.
  unfold get_recipes. simpl req_ingredients. simpl req_difficulty.
  simpl req_healthy_only. rewrite py_or_str_list, str_list_check.
  rewrite str_items_str_list. simpl.
  by destruct (filter_stage _ _ _).
Qed.

Lemma get_recipes_response_pure payload request db :
  (get_recipes collab payload request db).1
  = (get_recipes absent_collaborator payload bare_request ()).1.
Proof.
  unfold get_recipes.
  destruct (negb _ || existsb _ _); [reflexivity|].
  by destruct (filter_stage _ _ _).
Qed.

Lemma get_recipes_store payload request db :
  (get_recipes collab payload request db).2 = db
  ∨ ∃ doc, (get_recipes collab payload request db).2
           = (create_document collab "searchlog" doc db).2.
Proof.
  unfold get_recipes.
  destruct (negb _ || existsb _ _); [by left|].
  destruct (filter_stage _ _ _) as [e|results]; [by left|].
  simpl. unfold try_except_pass, log_search.
  destruct (import_SearchLog collab) as [SearchLog|]; [|by left].
  destruct (SearchLog _) as [doc|]; [|by left].
  right. exists doc. by destruct (create_document _ _ _ _) as [[[]|] db'].
Qed.
End handler_facts.

Lemma filter_stage_absent healthy_only (results : list Recipe) :
  filter_stage None healthy_only results
  = inr (filter (passes None healthy_only) results).
Proof.
  unfold filter_stage. destruct healthy_only.
  - f_equal. apply list_filter_iff. intros r. unfold passes.
    intuition congruence.
  - f_equal. symmetry. apply filter_all, Forall_forall.
    intros r _. unfold passes. auto.
Qed.

Lemma filter_stage_allowed d healthy_only (results : list Recipe) :
  d ∈ allowed →
  filter_stage (Some d) healthy_only results
  = inr (filter (passes (Some d) healthy_only) results).
Proof.
  intros Hd. unfold filter_stage.
  rewrite bool_decide_eq_true_2.
  2:{ intros ->. apply elem_of_allowed in Hd.
      destruct Hd as [?|[?|?]]; discriminate. }
  rewrite bool_decide_eq_false_2 by auto.
  destruct healthy_only; f_equal.
  - rewrite list_filter_filter. apply list_filter_iff.
    intros r. unfold passes. intuition congruence.
  - apply list_filter_iff. intros r. unfold passes. intuition congruence.
Qed.

(** C4. For a difficulty that is absent or one of easy, medium, hard, the
    filter stage returns exactly the results that pass both conditions, as
    a subsequence of its input. *)
Theorem filter_stage_subsequence (difficulty_ : option string)
    (healthy_only : bool) (results : list Recipe) :
  difficulty_ = None ∨ difficulty_ = Some "easy"
    ∨ difficulty_ = Some "medium" ∨ difficulty_ = Some "hard" →
  filter_stage difficulty_ healthy_only results
    = inr (filter (passes difficulty_ healthy_only) results)
  ∧ filter (passes difficulty_ healthy_only) results `sublist_of` results
  ∧ ∀ r, passes difficulty_ healthy_only r ↔
         (difficulty_ = None ∨ difficulty_ = Some (difficulty r))
         ∧ (healthy_only = false ∨ is_healthy r = true).
Proof.
  intros Hd. split; [|split; [apply sublist_filter | done]].
  destruct Hd as [-> | Hd]; [apply filter_stage_absent|].
  assert (∃ d, difficulty_ = Some d ∧ d ∈ allowed) as (d & -> & Hin).
  { destruct Hd as [-> | [-> | ->]]; eexists; (split; [done|]);
      apply elem_of_allowed; auto. }
  by apply filter_stage_allowed.
Qed.

Lemma filter_stage_subsequence_witness :
  (Some "easy" = None ∨ Some "easy" = Some "easy"
    ∨ Some "easy" = Some "medium" ∨ Some "easy" = Some "hard")
  ∧ filter_stage (Some "easy") true [pasta_result; omelette_result]
    = inr [omelette_result].
Proof.
  assert (Some "easy" = None ∨ Some "easy" = Some "easy"
          ∨ Some "easy" = Some "medium" ∨ Some "easy" = Some "hard") as Hd
    by (right; left; reflexivity).
  split; [exact Hd|].
  exact (proj1 (filter_stage_subsequence (Some "easy") true
                  [pasta_result; omelette_result] Hd)).
Defined.

(** C5. The response to a request is fixed by the payload alone: it is
    the same for every collaborator, store and request headers, whether
    the logging step returns or raises.  The handler always returns, and
    the store it leaves is the initial one or the result of a single
    [create_document] call on it. *)
Theorem response_independent_of_logging `{StrOps} (payload : RecipeRequest) :
  ∃ resp : response,
    ∀ (DB Doc : Type) (collab : Collaborator DB Doc) (request : Request)
      (db : DB),
      (get_recipes collab payload request db).1 = resp
      ∧ ((get_recipes collab payload request db).2 = db
         ∨ ∃ doc, (get_recipes collab payload request db).2
                  = (create_document collab "searchlog" doc db).2).
Proof.
  exists (get_recipes absent_collaborator payload bare_request ()).1.
  intros DB Doc collab request db.
  split; [apply get_recipes_response_pure | apply get_recipes_store].
Qed.

(** One search, logged by a collaborator that returns and by one that
    raises: the same response, and one stored document with the
    normalised ingredients and the result count. *)
Example logged_search_returning :
  @get_recipes ascii_str_ops _ _ recording_collaborator
    {| req_ingredients := str_list omelette_pantry;
       req_healthy_only := true;
       req_difficulty := Some "easy" |} curl_request []
  = (inr [omelette_result; chickpea_result],
     [ {| log_ingredients :=
            ["eggs"; "onion"; "tomato"; "spinach"; "olive oil"; "salt";
             "salt"];
          log_healthy_only := true;
          log_difficulty := Some "easy";
          log_results_count := 2;
          log_client := Some "curl/8.5.0" |} ]).
Proof. by vm_compute. Qed.

Example logged_search_raising :
  (@get_recipes ascii_str_ops _ _ failing_collaborator
     {| req_ingredients := str_list omelette_pantry;
        req_healthy_only := true;
        req_difficulty := Some "easy" |} curl_request []).1
  = inr [omelette_result; chickpea_result].
Proof. by vm_compute. Qed.

(** C6, amended. A request whose difficulty is a non-empty string other
    than easy, medium and hard is rejected with status 400 and a non-empty
    detail, without results and without a logging attempt; when the
    ingredients are a list of strings the detail names the difficulty. *)
Theorem unknown_difficulty_rejected `{StrOps} {DB Doc : Type}
    (collab : Collaborator DB Doc) (payload : RecipeRequest)
    (request : Request) (db : DB) (d : string) :
  req_difficulty payload = Some d → d ≠ EmptyString → d ∉ allowed →
  ∃ e : HTTPException,
    get_recipes collab payload request db = (inl e, db)
    ∧ status_code e = 400%Z
    ∧ detail e ≠ EmptyString
    ∧ (is_str_list (req_ingredients payload) → e = bad_difficulty).
Proof.
  intros Hd Hne Hnot.
  assert (∀ results, filter_stage (Some d) (req_healthy_only payload) results
                     = inl bad_difficulty) as Hstage.
  { intros results. unfold filter_stage.
    by rewrite bool_decide_eq_true_2, bool_decide_eq_true_2. }
  destruct payload as [ing healthy_only difficulty_]. simpl in *. subst.
  unfold get_recipes. simpl.
  destruct (negb _ || existsb _ _) eqn:Hcheck.
  - exists bad_ingredients. repeat split; try done.
    intros [pantry ->]. rewrite py_or_str_list, str_list_check in Hcheck.
    discriminate Hcheck.
  - rewrite Hstage. exists bad_difficulty. by repeat split.
Qed.

Lemma unknown_difficulty_rejected_witness :
  (Some "extreme" = Some "extreme" ∧ "extreme" ≠ EmptyString
   ∧ "extreme" ∉ allowed)
  ∧ ∃ e : HTTPException,
      @get_recipes ascii_str_ops unit unit absent_collaborator
        {| req_ingredients := str_list ["eggs"];
           req_healthy_only := false;
           req_difficulty := Some "extreme" |} bare_request ()
      = (inl e, ())
      ∧ status_code e = 400%Z
      ∧ detail e ≠ EmptyString
      ∧ (is_str_list (str_list ["eggs"]) → e = bad_difficulty).
Proof.
  assert ("extreme" ≠ EmptyString) as Hne by discriminate.
  assert ("extreme" ∉ allowed) as Hnot.
  { rewrite elem_of_allowed. intros [?|[?|?]]; discriminate. }
  split; [by repeat split|].
  exact (@unknown_difficulty_rejected ascii_str_ops unit unit
           absent_collaborator
           {| req_ingredients := str_list ["eggs"];
              req_healthy_only := false;
              req_difficulty := Some "extreme" |}
           bare_request () "extreme" eq_refl Hne Hnot).
Defined.

(** C6 as stated fails: the empty string is a present difficulty that is
    none of easy, medium and hard, and the request is answered with
    status 200. *)
Lemma empty_difficulty_not_rejected :
  let payload := {| req_ingredients := str_list [];
                    req_healthy_only := false;
                    req_difficulty := Some EmptyString |} in
  req_difficulty payload = Some EmptyString
  ∧ (EmptyString ∉ allowed)
  ∧ (@get_recipes ascii_str_ops unit unit absent_collaborator
       payload bare_request ()).1 = inr []
  ∧ response_status
      (@get_recipes ascii_str_ops unit unit absent_collaborator
         payload bare_request ()).1 = 200%Z
  ∧ ¬ (∀ (payload : RecipeRequest) (d : string),
         req_difficulty payload = Some d → d ∉ allowed →
         ∃ e : HTTPException,
           (@get_recipes ascii_str_ops unit unit absent_collaborator
              payload bare_request ()).1 = inl e
           ∧ status_code e = 400%Z).
Proof.
  assert (EmptyString ∉ allowed) as Hnot.
  { rewrite elem_of_allowed. intros [?|[?|?]]; discriminate. }
  simpl. split; [done|]. split; [done|]. split; [by vm_compute|].
  split; [by vm_compute|].
  intros Hclaim.
  destruct (Hclaim {| req_ingredients := str_list [];
                      req_healthy_only := false;
                      req_difficulty := Some EmptyString |}
             EmptyString eq_refl Hnot)
    as (e & He & _).
  vm_compute in He. discriminate He.
Qed.

(** C10. An empty-string difficulty is handled as an absent one: the
    response is the same for every request, and for a list of strings it
    is status 200 with the matcher's output, filtered by healthiness only
    when [healthy_only] is set. *)
Theorem empty_difficulty_as_absent `{StrOps} {DB Doc : Type}
    (collab : Collaborator DB Doc) (healthy_only : bool)
    (request : Request) (db : DB) :
  (∀ ing : pyval,
     (get_recipes collab
        {| req_ingredients := ing; req_healthy_only := healthy_only;
           req_difficulty := Some EmptyString |} request db).1
     = (get_recipes collab
          {| req_ingredients := ing; req_healthy_only := healthy_only;
             req_difficulty := None |} request db).1)
  ∧ (∀ pantry : list string,
       (get_recipes collab
          {| req_ingredients := str_list pantry;
             req_healthy_only := healthy_only;
             req_difficulty := Some EmptyString |} request db).1
       = inr (if healthy_only
              then filter (λ r, is_healthy r = true)
                          (simple_recipe_engine pantry)
              else simple_recipe_engine pantry))
  ∧ (∀ results : list Recipe,
       filter_stage (Some EmptyString) healthy_only results
       = filter_stage None healthy_only results).
Proof.
  assert (∀ results : list Recipe,
            filter_stage (Some EmptyString) healthy_only results
            = filter_stage None healthy_only results) as Hstage by done.
  split; [|split; [|exact Hstage]].
  - intros ing. unfold get_recipes. simpl.
    destruct (negb _ || existsb _ _); [done|].
    rewrite Hstage. by destruct (filter_stage _ _ _).
  - intros pantry. rewrite get_recipes_str_list, Hstage.
    unfold filter_stage. by destruct healthy_only.
Qed.

(** ** Pantry normalisation *)

Section normalisation.
Context `{StrOps}.

Lemma pantry_set_app (P1 P2 : list string) :
  pantry_set (P1 ++ P2) = pantry_set P1 ∪ pantry_set P2.
Proof.
  unfold pantry_set. by rewrite filter_app, map_app, list_to_set_app_L.
Qed.

Lemma pantry_set_cons (s : string) (P : list string) :
  pantry_set (s :: P)
  = (if decide (strip s ≠ EmptyString) then {[ lower (strip s) ]} else ∅)
    ∪ pantry_set P.
Proof.
  unfold pantry_set. rewrite filter_cons.
  destruct (decide (strip s ≠ EmptyString)); simpl; [done|].
  by rewrite (left_id_L ∅ (∪)).
Qed.

(** An entry that is blank after trimming adds nothing. *)
Lemma pantry_set_blank P1 s P2 :
  strip s = EmptyString → pantry_set (P1 ++ s :: P2) = pantry_set (P1 ++ P2).
Proof.
  intros Hs. rewrite !pantry_set_app, pantry_set_cons.
  rewrite decide_False by (by intros ?). by rewrite (left_id_L ∅ (∪)).
Qed.

(** Two entries with the same trimmed lower-case form are
    interchangeable. *)
Lemma pantry_set_same_name P1 s s' P2 :
  lower (strip s) = lower (strip s') →
  (strip s = EmptyString ↔ strip s' = EmptyString) →
  pantry_set (P1 ++ s :: P2) = pantry_set (P1 ++ s' :: P2).
Proof.
  intros Hlow Hblank. rewrite !pantry_set_app, !pantry_set_cons, Hlow.
  destruct (decide (strip s ≠ EmptyString)) as [Hs|Hs],
           (decide (strip s' ≠ EmptyString)) as [Hs'|Hs']; try done.
  - destruct Hs. apply Hblank. by destruct (decide (strip s' = EmptyString)).
  - destruct Hs'. apply Hblank. by destruct (decide (strip s = EmptyString)).
Qed.

(** An entry that occurs elsewhere in the pantry adds nothing. *)
Lemma pantry_set_repeat P1 s P2 :
  s ∈ P1 ++ P2 → pantry_set (P1 ++ s :: P2) = pantry_set (P1 ++ P2).
Proof.
  intros Hin. rewrite !pantry_set_app, pantry_set_cons.
  destruct (decide (strip s ≠ EmptyString)) as [Hs|Hs];
    [|by rewrite (left_id_L ∅ (∪))].
  assert (lower (strip s) ∈ pantry_set P1 ∪ pantry_set P2) as Hmem.
  { rewrite <- pantry_set_app. apply elem_of_pantry_set. by exists s. }
  apply set_eq. intros x. rewrite !elem_of_union, elem_of_singleton.
  rewrite elem_of_union in Hmem. split; [|tauto].
  intros [?|[-> | ?]]; tauto.
Qed.
End normalisation.

(** *** The ASCII built-ins *)

Lemma ascii_isspace_lower (c : ascii) :
  ascii_isspace (ascii_lower_char c) = ascii_isspace c.
Proof. destruct c as [[] [] [] [] [] [] [] []]; reflexivity. Qed.

Lemma ascii_lower_nil (s : string) :
  ascii_lower s = EmptyString ↔ s = EmptyString.
Proof. destruct s; simpl; split; intros; done. Qed.

Lemma ascii_lower_lstrip (s : string) :
  ascii_lower (ascii_lstrip s) = ascii_lstrip (ascii_lower s).
Proof.
  induction s as [|c s IH]; simpl; [done|].
  rewrite ascii_isspace_lower. by destruct (ascii_isspace c).
Qed.

Lemma ascii_lower_rstrip (s : string) :
  ascii_lower (ascii_rstrip s) = ascii_rstrip (ascii_lower s).
Proof.
  induction s as [|c s IH]; simpl; [done|].
  rewrite <- IH, ascii_isspace_lower.
  destruct (ascii_rstrip s); simpl; [|done].
  by destruct (ascii_isspace c).
Qed.

Lemma ascii_lower_strip (s : string) :
  ascii_lower (ascii_strip s) = ascii_strip (ascii_lower s).
Proof.
  unfold ascii_strip. by rewrite ascii_lower_rstrip, ascii_lower_lstrip.
Qed.

Lemma ascii_lstrip_space (w s : string) :
  ascii_all_space w = true → ascii_lstrip (w +:+ s) = ascii_lstrip s.
Proof.
  induction w as [|c w IH]; simpl; [done|].
  intros [-> Hw]%andb_true_iff. by apply IH.
Qed.

Lemma ascii_lstrip_all_space (w : string) :
  ascii_all_space w = true → ascii_lstrip w = EmptyString.
Proof.
  induction w as [|c w IH]; simpl; [done|].
  intros [-> Hw]%andb_true_iff. by apply IH.
Qed.

Lemma ascii_rstrip_all_space (w : string) :
  ascii_all_space w = true → ascii_rstrip w = EmptyString.
Proof.
  induction w as [|c w IH]; simpl; [done|].
  intros [-> Hw]%andb_true_iff. by rewrite IH.
Qed.

Lemma ascii_rstrip_space (s w : string) :
  ascii_all_space w = true → ascii_rstrip (s +:+ w) = ascii_rstrip s.
Proof.
  intros Hw. induction s as [|c s IH]; simpl.
  - by apply ascii_rstrip_all_space.
  - by rewrite IH.
Qed.

Lemma ascii_strip_space_r (s w : string) :
  ascii_all_space w = true → ascii_strip (s +:+ w) = ascii_strip s.
Proof.
  intros Hw. unfold ascii_strip. induction s as [|c s IH]; simpl.
  - by rewrite ascii_lstrip_all_space.
  - destruct (ascii_isspace c); [exact IH|].
    change (String c (s +:+ w)) with (String c s +:+ w).
    by apply ascii_rstrip_space.
Qed.

(** White space around an entry is not seen by [strip]. *)
Lemma ascii_strip_surrounded (w1 s w2 : string) :
  ascii_all_space w1 = true → ascii_all_space w2 = true →
  ascii_strip (w1 +:+ s +:+ w2) = ascii_strip s.
Proof.
  intros H1 H2. unfold ascii_strip at 1.
  rewrite ascii_lstrip_space by done.
  by apply ascii_strip_space_r.
Qed.

(** C9. Pantries with the same normalised set get the same output.  In
    particular, for any behaviour of the two built-ins, the output does
    not change when an entry is repeated, when a blank entry is inserted,
    or when an entry is replaced by one with the same trimmed lower-case
    form; on ASCII text, it does not change when the case of an entry's
    letters changes or when white space is put around an entry. *)
Theorem engine_invariant_under_normalisation :
  (∀ (ops : StrOps) (P P' : list string),
     pantry_set P = pantry_set P' →
     simple_recipe_engine P = simple_recipe_engine P')
  ∧ (∀ (ops : StrOps) (P1 : list string) (s : string) (P2 : list string),
       s ∈ P1 ++ P2 →
       simple_recipe_engine (P1 ++ s :: P2) = simple_recipe_engine (P1 ++ P2))
  ∧ (∀ (ops : StrOps) (P1 : list string) (s : string) (P2 : list string),
       strip s = EmptyString →
       simple_recipe_engine (P1 ++ s :: P2) = simple_recipe_engine (P1 ++ P2))
  ∧ (∀ (ops : StrOps) (P1 : list string) (s s' : string) (P2 : list string),
       lower (strip s) = lower (strip s') →
       (strip s = EmptyString ↔ strip s' = EmptyString) →
       simple_recipe_engine (P1 ++ s :: P2)
       = simple_recipe_engine (P1 ++ s' :: P2))
  ∧ (∀ (P1 : list string) (s s' : string) (P2 : list string),
       ascii_lower s = ascii_lower s' →
       @simple_recipe_engine ascii_str_ops (P1 ++ s :: P2)
       = @simple_recipe_engine ascii_str_ops (P1 ++ s' :: P2))
  ∧ (∀ (P1 : list string) (w1 s w2 : string) (P2 : list string),
       ascii_all_space w1 = true → ascii_all_space w2 = true →
       @simple_recipe_engine ascii_str_ops (P1 ++ (w1 +:+ s +:+ w2) :: P2)
       = @simple_recipe_engine ascii_str_ops (P1 ++ s :: P2)).
Proof.
  assert (∀ (ops : StrOps) (P P' : list string),
            pantry_set P = pantry_set P' →
            simple_recipe_engine P = simple_recipe_engine P') as Hset.
  { intros ops P P'. apply engine_on_same_set. }
  split; [exact Hset|].
  split; [intros; by apply Hset, pantry_set_repeat|].
  split; [intros; by apply Hset, pantry_set_blank|].
  split; [intros; by apply Hset, pantry_set_same_name|].
  split.
  - intros P1 s s' P2 Hlow.
    assert (@lower ascii_str_ops (@strip ascii_str_ops s)
            = @lower ascii_str_ops (@strip ascii_str_ops s')) as Hname.
    { simpl. by rewrite !ascii_lower_strip, Hlow. }
    apply Hset, pantry_set_same_name; [exact Hname|].
    simpl in *. rewrite <- !(ascii_lower_nil (ascii_strip _)). by rewrite Hname.
  - intros P1 w1 s w2 P2 H1 H2.
    assert (@strip ascii_str_ops (w1 +:+ s +:+ w2) = @strip ascii_str_ops s)
      as Hstrip by (by apply ascii_strip_surrounded).
    apply Hset, pantry_set_same_name; by rewrite Hstrip.
Qed.

Lemma engine_invariant_under_normalisation_witness :
  (@pantry_set ascii_str_ops omelette_pantry
   = @pantry_set ascii_str_ops omelette_pantry_normal
   ∧ @simple_recipe_engine ascii_str_ops omelette_pantry
     = @simple_recipe_engine ascii_str_ops omelette_pantry_normal)
  ∧ (ascii_lower "Eggs" = ascii_lower "eGGS"
     ∧ @simple_recipe_engine ascii_str_ops (["salt"] ++ "Eggs" :: ["onion"])
       = @simple_recipe_engine ascii_str_ops (["salt"] ++ "eGGS" :: ["onion"])).
Proof.
  assert (@pantry_set ascii_str_ops omelette_pantry
          = @pantry_set ascii_str_ops omelette_pantry_normal) as Hset.
  { vm_compute. reflexivity. }
  assert (ascii_lower "Eggs" = ascii_lower "eGGS") as Hlow by reflexivity.
  destruct engine_invariant_under_normalisation
    as (Hmain & _ & _ & _ & Hcase & _).
  split.
  - exact (conj Hset (Hmain ascii_str_ops _ _ Hset)).
  - exact (conj Hlow (Hcase ["salt"] "Eggs" "eGGS" ["onion"] Hlow)).
Defined.

(** ** Further properties of the matcher *)

Lemma filter_sublist_weaken {A} (P Q : A → Prop)
    `{!∀ x, Decision (P x)} `{!∀ x, Decision (Q x)} (l : list A) :
  (∀ x, P x → Q x) → filter P l `sublist_of` filter Q l.
Proof.
  intros HPQ. induction l as [|x l IH]; [done|]. rewrite !filter_cons.
  destruct (decide (P x)) as [HP|HP].
  - rewrite decide_True by auto. by constructor.
  - destruct (decide (Q x)); [by constructor | done].
Qed.

Lemma StronglySorted_sublist {A} (R : A → A → Prop) (l1 l2 : list A) :
  l1 `sublist_of` l2 → StronglySorted R l2 → StronglySorted R l1.
Proof.
  induction 1 as [|x l1 l2 Hsub IH|x l1 l2 Hsub IH]; intros Hs; [done| |].
  - apply StronglySorted_inv in Hs as [Hs Hall]. constructor; [auto|].
    rewrite Forall_forall in Hall. apply Forall_forall.
    intros y Hy. apply Hall. by eapply elem_of_sublist.
  - apply StronglySorted_inv in Hs as [Hs _]. auto.
Qed.

Section engine_extras.
Context `{StrOps}.

Lemma pantry_set_mono (P P' : list string) :
  P ⊆ P' → pantry_set P ⊆ pantry_set P'.
Proof.
  intros Hsub x. rewrite !elem_of_pantry_set.
  intros (p & Hp & Hne & ->). exists p. split; [by apply Hsub | done].
Qed.

Lemma engine_nil : simple_recipe_engine [] = [].
Proof.
  unfold simple_recipe_engine. rewrite engine_on_eq.
  assert (omap (match_item (pantry_set [])) catalog = []) as ->; [|done].
  assert (Forall (λ item, 1 ≤ length (item_ingredients item)) catalog)
    as Hlen.
  { apply (bool_decide_unpack _). by vm_compute. }
  induction Hlen as [|item cat Hitem _ IH]; [done|].
  change (omap ?f (item :: cat))
    with (match f item with
          | Some r => r :: omap f cat
          | None => omap f cat
          end).
  destruct (match_item (pantry_set []) item) as [r|] eqn:E; [|exact IH].
  apply match_item_Some in E as [Hle _].
  rewrite missing_all_of_empty in Hle.
  pose proof (Nat.div_lt (length (item_ingredients item)) 2). lia.
Qed.

Lemma engine_titles_sublist (pantry : list string) :
  ∃ l, title <$> simple_recipe_engine pantry ≡ₚ l
       ∧ l `sublist_of` item_title <$> catalog.
Proof.
  exists (title <$> omap (match_item (pantry_set pantry)) catalog).
  split; [|apply match_item_titles].
  unfold simple_recipe_engine. by rewrite engine_on_eq, sort_by_key_perm.
Qed.
End engine_extras.

(** X1. The matcher never returns a recipe twice: the titles of its
    results are pairwise distinct, each is a catalog title, and there are
    at most as many results as catalog entries. *)
Theorem engine_results_distinct `{StrOps} (pantry : list string) :
  NoDup (title <$> simple_recipe_engine pantry)
  ∧ title <$> simple_recipe_engine pantry ⊆ item_title <$> catalog
  ∧ length (simple_recipe_engine pantry) ≤ length catalog
  ∧ length catalog = 6.
Proof.
  destruct (engine_titles_sublist pantry) as (l & Hperm & Hsub).
  split; [|split; [|split; [|done]]].
  - rewrite Hperm. eapply sublist_NoDup; [apply catalog_titles_distinct|done].
  - intros t Ht. rewrite Hperm in Ht. by eapply elem_of_sublist.
  - apply sublist_length in Hsub. apply Permutation_length in Hperm.
    rewrite !length_fmap in *. lia.
Qed.

(** X2. Adding strings to the pantry never loses a recipe: every result
    for a pantry has a result with the same title and ingredients for any
    pantry that contains all its strings, and what is missing there is a
    subsequence of what was missing before. *)
Theorem larger_pantry_keeps_results `{StrOps} (P P' : list string)
    (r : Recipe) :
  P ⊆ P' → r ∈ simple_recipe_engine P →
  ∃ r', r' ∈ simple_recipe_engine P'
        ∧ title r' = title r
        ∧ ingredients r' = ingredients r
        ∧ missing_ingredients r' `sublist_of` missing_ingredients r.
Proof.
  intros Hsub Hr. apply pantry_set_mono in Hsub.
  apply elem_of_engine_on in Hr as (item & Hitem & Hm).
  apply match_item_Some in Hm as [Hle ->].
  assert (filter (λ x, lower x ∉ pantry_set P') (item_ingredients item)
          `sublist_of`
          filter (λ x, lower x ∉ pantry_set P) (item_ingredients item))
    as Hmissing.
  { apply filter_sublist_weaken. intros x Hx Hin. apply Hx. by apply Hsub. }
  exists (result_of item
            (filter (λ x, lower x ∉ pantry_set P') (item_ingredients item))).
  split; [|by repeat split].
  apply elem_of_engine_on. exists item. split; [done|].
  apply match_item_Some. split; [|done].
  apply sublist_length in Hmissing. lia.
Qed.

Lemma larger_pantry_keeps_results_witness :
  (omelette_pantry_normal ⊆ full_omelette_pantry
   ∧ omelette_result
     ∈ @simple_recipe_engine ascii_str_ops omelette_pantry_normal)
  ∧ ∃ r', r' ∈ @simple_recipe_engine ascii_str_ops full_omelette_pantry
          ∧ title r' = title omelette_result
          ∧ ingredients r' = ingredients omelette_result
          ∧ missing_ingredients r'
            `sublist_of` missing_ingredients omelette_result.
Proof.
  assert (omelette_pantry_normal ⊆ full_omelette_pantry) as Hsub.
  { apply (bool_decide_unpack _). by vm_compute. }
  assert (omelette_result
          ∈ @simple_recipe_engine ascii_str_ops omelette_pantry_normal)
    as Hin.
  { vm_compute. apply list_elem_of_here. }
  split; [by split|].
  exact (@larger_pantry_keeps_results ascii_str_ops _ _ _ Hsub Hin).
Defined.

(** X3. When the pantry names every ingredient of a catalog entry, that
    entry is returned with nothing missing, and the first result of the
    output has nothing missing. *)
Theorem covered_recipe_first `{StrOps} (pantry : list string)
    (item : CatalogItem) :
  item ∈ catalog →
  Forall (λ x, Exists (names x) pantry) (item_ingredients item) →
  result_of item [] ∈ simple_recipe_engine pantry
  ∧ ∃ r rest, simple_recipe_engine pantry = r :: rest
              ∧ missing_ingredients r = [].
Proof.
  intros Hitem Hnamed.
  assert (filter (λ x, lower x ∉ pantry_set pantry) (item_ingredients item)
          = []) as Hnone.
  { rewrite missing_filter. unfold missing_from.
    induction Hnamed as [|x l Hx _ IH]; [done|].
    rewrite filter_cons, decide_False by auto. exact IH. }
  assert (result_of item [] ∈ simple_recipe_engine pantry) as Hin.
  { apply elem_of_engine_on. exists item. split; [done|].
    apply match_item_Some. rewrite Hnone. split; [simpl; lia | done]. }
  split; [exact Hin|].
  pose proof (sort_by_key_sorted sort_key
                (omap (match_item (pantry_set pantry)) catalog)) as Hsorted.
  unfold simple_recipe_engine in *. rewrite engine_on_eq in *.
  destruct (sort_by_key _ _) as [|r rest]; [by inversion Hin|].
  exists r, rest. split; [done|].
  apply StronglySorted_inv in Hsorted as [_ Hall].
  rewrite Forall_forall in Hall.
  apply elem_of_cons in Hin as [<- | Hin]; [done|].
  specialize (Hall _ Hin). unfold key_le, sort_key in Hall. simpl in Hall.
  destruct (missing_ingredients r); [done | simpl in Hall; lia].
Qed.

Lemma covered_recipe_first_witness :
  (veggie_omelette ∈ catalog
   ∧ Forall (λ x, Exists (@names ascii_str_ops x) full_omelette_pantry)
            (item_ingredients veggie_omelette))
  ∧ result_of veggie_omelette []
    ∈ @simple_recipe_engine ascii_str_ops full_omelette_pantry.
Proof.
  assert (veggie_omelette ∈ catalog) as Hitem by apply list_elem_of_here.
  assert (Forall (λ x, Exists (@names ascii_str_ops x) full_omelette_pantry)
                 (item_ingredients veggie_omelette)) as Hnamed.
  { apply (bool_decide_unpack _). by vm_compute. }
  split; [by split|].
  exact (proj1 (@covered_recipe_first ascii_str_ops _ _ Hitem Hnamed)).
Defined.

(** ** Further properties of the handler *)

Lemma filter_stage_inl difficulty_ healthy_only (l : list Recipe) e :
  filter_stage difficulty_ healthy_only l = inl e →
  e = bad_difficulty
  ∧ ∃ d, difficulty_ = Some d ∧ d ≠ EmptyString ∧ d ∉ allowed.
Proof.
  unfold filter_stage. destruct difficulty_ as [d|].
  - case_bool_decide as Hne; [case_bool_decide as Hnot|].
    + intros [= <-]. split; [done|]. by exists d.
    + by destruct healthy_only.
    + by destruct healthy_only.
  - by destruct healthy_only.
Qed.

Lemma filter_stage_inr difficulty_ healthy_only (l rs : list Recipe) :
  filter_stage difficulty_ healthy_only l = inr rs →
  rs = filter (passes (effective_difficulty difficulty_) healthy_only) l
  ∧ ∀ d, difficulty_ = Some d → d ≠ EmptyString → d ∈ allowed.
Proof.
  intros Hrs. destruct difficulty_ as [d|]; simpl.
  - destruct (decide (d = EmptyString)) as [->|Hne].
    + change (filter_stage (Some EmptyString) healthy_only l)
        with (filter_stage None healthy_only l) in Hrs.
      rewrite filter_stage_absent in Hrs. injection Hrs as <-.
      split; [done|]. by intros d [= <-].
    + rewrite bool_decide_eq_true_2 by done.
      destruct (decide (d ∈ allowed)) as [Hin|Hnot].
      * rewrite filter_stage_allowed in Hrs by done. injection Hrs as <-.
        split; [done|]. by intros d' [= <-].
      * unfold filter_stage in Hrs.
        by rewrite bool_decide_eq_true_2, bool_decide_eq_true_2 in Hrs.
  - rewrite filter_stage_absent in Hrs. by injection Hrs as <-.
Qed.

Section handler_extras.
Context `{StrOps} {DB Doc : Type} (collab : Collaborator DB Doc).

(** The handler, split at its first test. *)
Lemma get_recipes_cases payload request db :
  (get_recipes collab payload request db = (inl bad_ingredients, db))
  ∨ (get_recipes collab payload request db).1
    = filter_stage (req_difficulty payload) (req_healthy_only payload)
        (simple_recipe_engine (cleaned_pantry payload)).
Proof.
  unfold get_recipes, cleaned_pantry.
  destruct (negb _ || existsb _ _); [by left|]. right.
  by destruct (filter_stage _ _ _).
Qed.

Lemma get_recipes_error_store payload request db e :
  (get_recipes collab payload request db).1 = inl e →
  (get_recipes collab payload request db).2 = db.
Proof.
  unfold get_recipes.
  destruct (negb _ || existsb _ _); [done|].
  by destruct (filter_stage _ _ _).
Qed.

Lemma get_recipes_inr payload request db results :
  (get_recipes collab payload request db).1 = inr results →
  filter_stage (req_difficulty payload) (req_healthy_only payload)
    (simple_recipe_engine (cleaned_pantry payload)) = inr results.
Proof.
  destruct (get_recipes_cases payload request db) as [Heq|Heq].
  - by rewrite Heq.
  - by rewrite Heq.
Qed.

Lemma get_recipes_logged payload request db results :
  (get_recipes collab payload request db).1 = inr results →
  (get_recipes collab payload request db).2
  = try_except_pass
      (log_search collab (cleaned_pantry payload) (req_healthy_only payload)
         (req_difficulty payload) results request) db.
Proof.
  unfold get_recipes, cleaned_pantry.
  destruct (negb _ || existsb _ _); [done|].
  destruct (filter_stage _ _ _) as [e|rs]; [done|]. simpl.
  by intros [= ->].
Qed.
End handler_extras.

(** X4. The handler raises nothing but its two client errors, both with
    status 400, and a rejected request leaves the store untouched: no
    search is logged for it. *)
Theorem rejected_request_not_logged `{StrOps} {DB Doc : Type}
    (collab : Collaborator DB Doc) (payload : RecipeRequest)
    (request : Request) (db : DB) (e : HTTPException) :
  (get_recipes collab payload request db).1 = inl e →
  (e = bad_ingredients ∨ e = bad_difficulty)
  ∧ status_code e = 400%Z
  ∧ (get_recipes collab payload request db).2 = db.
Proof.
  intros He.
  assert (e = bad_ingredients ∨ e = bad_difficulty) as Hcases.
  { destruct (get_recipes_cases collab payload request db) as [Heq|Heq].
    - rewrite Heq in He. left. by injection He.
    - rewrite Heq in He. right. by apply filter_stage_inl in He as [-> _]. }
  split; [exact Hcases|]. split.
  - by destruct Hcases as [-> | ->].
  - by eapply get_recipes_error_store.
Qed.

Lemma rejected_request_not_logged_witness :
  (@get_recipes ascii_str_ops _ _ recording_collaborator
     {| req_ingredients := str_list ["eggs"];
        req_healthy_only := false;
        req_difficulty := Some "extreme" |} curl_request []).1
  = inl bad_difficulty
  ∧ (@get_recipes ascii_str_ops _ _ recording_collaborator
       {| req_ingredients := str_list ["eggs"];
          req_healthy_only := false;
          req_difficulty := Some "extreme" |} curl_request []).2 = [].
Proof.
  assert ((@get_recipes ascii_str_ops _ _ recording_collaborator
             {| req_ingredients := str_list ["eggs"];
                req_healthy_only := false;
                req_difficulty := Some "extreme" |} curl_request []).1
          = inl bad_difficulty) as He by (by vm_compute).
  split; [exact He|].
  exact (proj2 (proj2 (@rejected_request_not_logged ascii_str_ops _ _
                         recording_collaborator _ curl_request [] _ He))).
Defined.

(** X5. The list a successful request returns is a subsequence of the
    matcher's output for the pantry it was given: it is still sorted
    ascending by (number of missing ingredients, cooking time), and every
    result still meets the half-coverage bound. *)
Theorem returned_results_ranked `{StrOps} {DB Doc : Type}
    (collab : Collaborator DB Doc) (payload : RecipeRequest)
    (request : Request) (db : DB) (results : list Recipe) :
  (get_recipes collab payload request db).1 = inr results →
  results `sublist_of` simple_recipe_engine (cleaned_pantry payload)
  ∧ StronglySorted
      (λ r1 r2,
         length (missing_ingredients r1) < length (missing_ingredients r2)
         ∨ (length (missing_ingredients r1) = length (missing_ingredients r2)
            ∧ (cooking_time_minutes r1 ≤ cooking_time_minutes r2)%Z))
      results
  ∧ Forall (λ r, length (missing_ingredients r) ≤ length (ingredients r) / 2)
           results.
Proof.
  intros Hres. apply get_recipes_inr in Hres.
  apply filter_stage_inr in Hres as [-> _].
  pose proof (sublist_filter
                (passes (effective_difficulty (req_difficulty payload))
                        (req_healthy_only payload))
                (simple_recipe_engine (cleaned_pantry payload))) as Hsub.
  split; [exact Hsub|]. split.
  - eapply StronglySorted_sublist; [exact Hsub|].
    unfold simple_recipe_engine. rewrite engine_on_eq.
    exact (sort_by_key_sorted sort_key _).
  - apply Forall_forall. intros r Hr.
    eapply elem_of_sublist in Hr; [|exact Hsub].
    apply elem_of_engine_on in Hr as (item & _ & Hm).
    by apply match_item_Some in Hm as [Hle ->].
Qed.

Lemma returned_results_ranked_witness :
  (@get_recipes ascii_str_ops _ _ recording_collaborator
     {| req_ingredients := str_list omelette_pantry;
        req_healthy_only := true;
        req_difficulty := Some "easy" |} curl_request []).1
  = inr [omelette_result; chickpea_result]
  ∧ [omelette_result; chickpea_result]
    `sublist_of` @simple_recipe_engine ascii_str_ops
                   (cleaned_pantry
                      {| req_ingredients := str_list omelette_pantry;
                         req_healthy_only := true;
                         req_difficulty := Some "easy" |}).
Proof.
  assert ((@get_recipes ascii_str_ops _ _ recording_collaborator
             {| req_ingredients := str_list omelette_pantry;
                req_healthy_only := true;
                req_difficulty := Some "easy" |} curl_request []).1
          = inr [omelette_result; chickpea_result]) as Hres
    by (by vm_compute).
  split; [exact Hres|].
  exact (proj1 (@returned_results_ranked ascii_str_ops _ _
                  recording_collaborator _ curl_request [] _ Hres)).
Defined.

(** X6. A successful request returns exactly the results of the matcher
    that are healthy when [healthy_only] is set and have the requested
    difficulty when a non-empty difficulty is given; that difficulty is
    then one of easy, medium, hard. *)
Theorem returned_results_exact `{StrOps} {DB Doc : Type}
    (collab : Collaborator DB Doc) (payload : RecipeRequest)
    (request : Request) (db : DB) (results : list Recipe) :
  (get_recipes collab payload request db).1 = inr results →
  (∀ r, r ∈ results ↔
        r ∈ simple_recipe_engine (cleaned_pantry payload)
        ∧ (req_healthy_only payload = true → is_healthy r = true)
        ∧ (∀ d, req_difficulty payload = Some d → d ≠ EmptyString →
                difficulty r = d))
  ∧ (∀ d, req_difficulty payload = Some d → d ≠ EmptyString → d ∈ allowed).
Proof.
  intros Hres. apply get_recipes_inr in Hres.
  apply filter_stage_inr in Hres as [-> Hallowed].
  split; [|exact Hallowed].
  intros r. rewrite list_elem_of_filter. unfold passes.
  destruct (req_healthy_only payload), (req_difficulty payload) as [d|];
    simpl; try case_bool_decide; split;
    try (intros [[Hd Hh] Hin]; split; [done|]; split;
         [intros; destruct Hh; congruence
         |intros d' Hd' Hne; destruct Hd; congruence]);
    intros (Hin & Hh & Hd); (split; [|done]).
  - split; [right; f_equal; symmetry; by apply Hd | right; by apply Hh].
  - split; [by left | right; by apply Hh].
  - split; [by left | right; by apply Hh].
  - split; [right; f_equal; symmetry; by apply Hd | by left].
  - split; [by left | by left].
  - split; [by left | by left].
Qed.

Lemma returned_results_exact_witness :
  (@get_recipes ascii_str_ops _ _ recording_collaborator
     {| req_ingredients := str_list omelette_pantry;
        req_healthy_only := true;
        req_difficulty := Some "easy" |} curl_request []).1
  = inr [omelette_result; chickpea_result]
  ∧ ∀ d, Some "easy" = Some d → d ≠ EmptyString → d ∈ allowed.
Proof.
  assert ((@get_recipes ascii_str_ops _ _ recording_collaborator
             {| req_ingredients := str_list omelette_pantry;
                req_healthy_only := true;
                req_difficulty := Some "easy" |} curl_request []).1
          = inr [omelette_result; chickpea_result]) as Hres
    by (by vm_compute).
  split; [exact Hres|].
  exact (proj2 (@returned_results_exact ascii_str_ops _ _
                  recording_collaborator _ curl_request [] _ Hres)).
Defined.

(** X7. For a successful request the logging step builds one [SearchLog]
    from the normalised pantry the matcher used and the number of results
    returned, and the store the handler leaves is the one a single
    [create_document] call on collection [searchlog] leaves, whether that
    call returns or raises; when the import or the constructor raises,
    the store is unchanged. *)
Theorem successful_search_logged_once `{StrOps} {DB Doc : Type}
    (collab : Collaborator DB Doc) (payload : RecipeRequest)
    (request : Request) (db : DB) (results : list Recipe) :
  (get_recipes collab payload request db).1 = inr results →
  let args :=
    search_log_args (cleaned_pantry payload) (req_healthy_only payload)
      (req_difficulty payload) results request in
  list_to_set (log_ingredients args) = pantry_set (cleaned_pantry payload)
  ∧ Forall (λ i, ∃ p, p ∈ cleaned_pantry payload ∧ strip p ≠ EmptyString
                      ∧ i = lower (strip p)) (log_ingredients args)
  ∧ log_results_count args = length results
  ∧ (get_recipes collab payload request db).2
    = match import_SearchLog collab with
      | Raised => db
      | Returned SearchLog =>
          match SearchLog args with
          | Raised => db
          | Returned doc => (create_document collab "searchlog" doc db).2
          end
      end.
Proof.
  intros Hres args. split; [done|]. split; [|split; [done|]].
  - apply Forall_forall. intros i Hi. apply elem_of_pantry_set.
    unfold pantry_set. apply elem_of_list_to_set. exact Hi.
  - rewrite (get_recipes_logged collab payload request db results Hres).
    unfold try_except_pass, log_search. subst args. unfold search_log_args.
    destruct (import_SearchLog collab) as [SearchLog|]; [|done].
    destruct (SearchLog _) as [doc|]; [|done].
    by destruct (create_document _ _ _ _) as [[[]|] db'].
Qed.

Lemma successful_search_logged_once_witness :
  (@get_recipes ascii_str_ops _ _ failing_collaborator
     {| req_ingredients := str_list omelette_pantry;
        req_healthy_only := true;
        req_difficulty := Some "easy" |} curl_request []).1
  = inr [omelette_result; chickpea_result]
  ∧ length
      (@get_recipes ascii_str_ops _ _ failing_collaborator
         {| req_ingredients := str_list omelette_pantry;
            req_healthy_only := true;
            req_difficulty := Some "easy" |} curl_request []).2 = 1.
Proof.
  assert ((@get_recipes ascii_str_ops _ _ failing_collaborator
             {| req_ingredients := str_list omelette_pantry;
                req_healthy_only := true;
                req_difficulty := Some "easy" |} curl_request []).1
          = inr [omelette_result; chickpea_result]) as Hres
    by (by vm_compute).
  split; [exact Hres|].
  destruct (@successful_search_logged_once ascii_str_ops _ _
              failing_collaborator _ curl_request [] _ Hres)
    as (_ & _ & _ & Hstore).
  rewrite Hstore. reflexivity.
Defined.

Lemma filter_none {A} (P : A → Prop) `{!∀ x, Decision (P x)} (l : list A) :
  Forall (λ x, ¬ P x) l → filter P l = [].
Proof.
  induction 1 as [|x l Hx _ IH]; [done|].
  by rewrite filter_cons, decide_False.
Qed.

(** X9. Every result of the matcher is easy or medium, so a request for
    difficulty hard, although accepted, returns the empty list for every
    pantry. *)
Theorem hard_difficulty_always_empty `{StrOps} {DB Doc : Type}
    (collab : Collaborator DB Doc) (pantry : list string)
    (healthy_only : bool) (request : Request) (db : DB) :
  Forall (λ r, difficulty r = "easy" ∨ difficulty r = "medium")
         (simple_recipe_engine pantry)
  ∧ (get_recipes collab
       {| req_ingredients := str_list pantry;
          req_healthy_only := healthy_only;
          req_difficulty := Some "hard" |} request db).1 = inr [].
Proof.
  assert (Forall (λ r, difficulty r = "easy" ∨ difficulty r = "medium")
                 (simple_recipe_engine pantry)) as Hdiff.
  { apply Forall_forall. intros r Hr.
    apply elem_of_engine_on in Hr as (item & Hitem & Hm).
    apply match_item_Some in Hm as [_ ->]. simpl.
    revert item Hitem. apply Forall_forall.
    apply (bool_decide_unpack _). by vm_compute. }
  split; [exact Hdiff|].
  rewrite get_recipes_str_list, filter_stage_allowed
    by (apply elem_of_allowed; auto).
  f_equal. apply filter_none. eapply Forall_impl; [exact Hdiff|].
  intros r Hr [Hd _]. destruct Hd as [Hd|Hd]; [done|].
  destruct Hr as [Hr|Hr]; rewrite Hr in Hd; discriminate Hd.
Qed.

(** X10. The filter stage is idempotent on what it returns, and its
    rejection does not depend on the list it is given: an unknown
    difficulty is rejected even when there is nothing to filter. *)
Theorem filter_stage_idempotent (difficulty_ : option string)
    (healthy_only : bool) (results : list Recipe) :
  match filter_stage difficulty_ healthy_only results with
  | inr rs => filter_stage difficulty_ healthy_only rs = inr rs
  | inl e => ∀ l, filter_stage difficulty_ healthy_only l = inl e
  end.
Proof.
  destruct (filter_stage difficulty_ healthy_only results) as [e|rs] eqn:E.
  - apply filter_stage_inl in E as (-> & d & -> & Hne & Hnot).
    intros l. unfold filter_stage.
    by rewrite bool_decide_eq_true_2, bool_decide_eq_true_2.
  - apply filter_stage_inr in E as [-> Hallowed].
    assert (∀ l, filter_stage difficulty_ healthy_only l
                 = inr (filter (passes (effective_difficulty difficulty_)
                                       healthy_only) l)) as Hstage.
    { intros l. destruct difficulty_ as [d|]; simpl.
      - destruct (decide (d = EmptyString)) as [->|Hne].
        + apply filter_stage_absent.
        + rewrite bool_decide_eq_true_2 by done.
          apply filter_stage_allowed. by apply Hallowed.
      - apply filter_stage_absent. }
    rewrite Hstage. f_equal. apply filter_all, Forall_forall.
    intros r Hr. by apply list_elem_of_filter in Hr as [Hp _].
Qed.

(** ** The diagnostic endpoint *)

Section diagnostics_facts.
Context `{StrSlice}.

Lemma probe_failed_fields e r :
  backend (probe_failed e r) = backend r
  ∧ connection_status (probe_failed e r) = connection_status r
  ∧ collections (probe_failed e r) = collections r
  ∧ database (probe_failed e r) ≠ "✅ Connected & Working".
Proof. unfold probe_failed. by destruct (is_import_error e). Qed.

(** The probe, by what it met. *)
Lemma probe_database_cases import_db r :
  (∃ db name names,
     import_db = Done (Some db) ∧ name_lookup db = Done name
     ∧ db_list_collection_names db = Done names
     ∧ probe_database import_db r
       = set_database "✅ Connected & Working"
           (set_collections (take 10 names)
              (set_connection_status "Connected"
                 (set_database_name name
                    (set_database_url (Some "✅ Configured")
                       (set_database "✅ Available" r))))))
  ∨ (∃ db name e,
       import_db = Done (Some db) ∧ name_lookup db = Done name
       ∧ db_list_collection_names db = Fails e
       ∧ probe_database import_db r
         = set_database
             ("⚠️  Connected but Error: " +:+ str_prefix 50 (exc_str e))
             (set_connection_status "Connected"
                (set_database_name name
                   (set_database_url (Some "✅ Configured")
                      (set_database "✅ Available" r)))))
  ∨ ((∀ db, import_db = Done (Some db) → ∃ e, name_lookup db = Fails e)
     ∧ backend (probe_database import_db r) = backend r
     ∧ connection_status (probe_database import_db r) = connection_status r
     ∧ collections (probe_database import_db r) = collections r
     ∧ database (probe_database import_db r) ≠ "✅ Connected & Working").
Proof.
  destruct import_db as [[db|]|e]; simpl.
  - unfold name_lookup.
    destruct (db_hasattr_name db) as [has|e] eqn:Ehas.
    + destruct (if has then db_get_name db else Done (PyStr "✅ Connected"))
        as [name|e] eqn:Ename.
      * destruct (db_list_collection_names db) as [names|e] eqn:Elist.
        -- left. exists db, name, names. by rewrite Ehas.
        -- right; left. exists db, name, e. by rewrite Ehas.
      * right; right. split.
        { intros db' [= <-]. rewrite Ehas, Ename. by exists e. }
        destruct (probe_failed_fields e
                    (set_database_url (Some "✅ Configured")
                       (set_database "✅ Available" r)))
          as (Hb & Hc & Hl & Hd).
        by rewrite Hb, Hc, Hl.
    + right; right. split.
      { intros db' [= <-]. rewrite Ehas. by exists e. }
      destruct (probe_failed_fields e
                  (set_database_url (Some "✅ Configured")
                     (set_database "✅ Available" r)))
        as (Hb & Hc & Hl & Hd).
      by rewrite Hb, Hc, Hl.
  - right; right. by repeat split.
  - right; right. split; [done|]. apply probe_failed_fields.
Qed.
End diagnostics_facts.

(** X11. Whatever the probe meets, the response reports the backend as
    running, and its [database_url] and [database_name] fields say only
    whether the environment variables are set to a non-empty value: the
    texts the probe stored there, [db.name] included, are overwritten. *)
Theorem diagnostics_env_fields `{StrSlice}
    (import_db : attempt (option DbHandle))
    (getenv : string → option string) :
  backend (test_database import_db getenv) = "✅ Running"
  ∧ database_url (test_database import_db getenv)
    = Some (if env_truthy getenv "DATABASE_URL" then "✅ Set"
            else "❌ Not Set")
  ∧ database_name (test_database import_db getenv)
    = PyStr (if env_truthy getenv "DATABASE_NAME" then "✅ Set"
             else "❌ Not Set")
  ∧ (∀ key, getenv key = None ∨ getenv key = Some EmptyString →
            env_truthy getenv key = false).
Proof.
  split; [|split; [done|split; [done|]]].
  - unfold test_database. simpl.
    destruct (probe_database_cases import_db
                {| backend := "✅ Running";
                   database := "❌ Not Available";
                   database_url := None;
                   database_name := PyNone;
                   connection_status := "Not Connected";
                   collections := [] |})
      as [(db & name & names & _ & _ & _ & ->)
         |[(db & name & e & _ & _ & _ & ->)|(_ & -> & _)]]; done.
  - intros key [Hk|Hk]; unfold env_truthy; by rewrite Hk.
Qed.

Lemma diagnostics_env_fields_witness :
  (sample_env "DATABASE_NAME" = None
   ∨ sample_env "DATABASE_NAME" = Some EmptyString)
  ∧ database_name (@test_database ascii_str_slice (Done (Some live_db))
                     sample_env) = PyStr "❌ Not Set"
  ∧ database_url (@test_database ascii_str_slice (Done (Some live_db))
                    sample_env) = Some "✅ Set".
Proof.
  assert (sample_env "DATABASE_NAME" = None
          ∨ sample_env "DATABASE_NAME" = Some EmptyString) as Hk
    by (right; reflexivity).
  destruct (@diagnostics_env_fields ascii_str_slice (Done (Some live_db))
              sample_env) as (_ & Hurl & Hname & Hfalse).
  split; [exact Hk|]. split.
  - rewrite Hname, (Hfalse _ Hk). reflexivity.
  - rewrite Hurl. reflexivity.
Defined.

(** X12. The response lists at most ten collections, always the first
    ones [list_collection_names] returned; it lists any only when the
    database is reported as connected and working. *)
Theorem diagnostics_collections `{StrSlice}
    (import_db : attempt (option DbHandle))
    (getenv : string → option string) :
  length (collections (test_database import_db getenv)) ≤ 10
  ∧ (∀ db names,
       import_db = Done (Some db) →
       db_list_collection_names db = Done names →
       collections (test_database import_db getenv) `prefix_of` names)
  ∧ (∀ db name names,
       import_db = Done (Some db) → name_lookup db = Done name →
       db_list_collection_names db = Done names →
       collections (test_database import_db getenv) = take 10 names)
  ∧ (collections (test_database import_db getenv) ≠ [] →
     database (test_database import_db getenv) = "✅ Connected & Working"
     ∧ connection_status (test_database import_db getenv) = "Connected").
Proof.
  unfold test_database. simpl.
  destruct (probe_database_cases import_db
              {| backend := "✅ Running";
                 database := "❌ Not Available";
                 database_url := None;
                 database_name := PyNone;
                 connection_status := "Not Connected";
                 collections := [] |})
    as [(db & name & names & -> & Hname & Hlist & ->)
       |[(db & name & e & -> & Hname & Hlist & ->)
        |(Hfail & _ & _ & Hcoll & _)]]; simpl.
  - split; [rewrite length_take; lia|]. split; [|split; [|done]].
    + intros db' names' [= <-] Hlist'. rewrite Hlist in Hlist'.
      injection Hlist' as <-. apply prefix_take.
    + intros db' name' names' [= <-] _ Hlist'. rewrite Hlist in Hlist'.
      by injection Hlist' as <-.
  - split; [lia|]. split; [|split; [|done]].
    + intros. apply prefix_nil.
    + intros db' name' names' [= <-] _ Hlist'. rewrite Hlist in Hlist'.
      discriminate Hlist'.
  - rewrite Hcoll. simpl. split; [lia|]. split; [|split; [|done]].
    + intros. apply prefix_nil.
    + intros db' name' names' -> Hname' _.
      destruct (Hfail db' eq_refl) as [e He]. rewrite He in Hname'.
      discriminate Hname'.
Qed.

Lemma diagnostics_collections_witness :
  (Done (Some live_db) = Done (Some live_db)
   ∧ name_lookup live_db = Done (PyStr "kollny")
   ∧ db_list_collection_names live_db = Done twelve_collections)
  ∧ collections (@test_database ascii_str_slice (Done (Some live_db))
                   sample_env)
    = take 10 twelve_collections.
Proof.
  assert (name_lookup live_db = Done (PyStr "kollny")) as Hname
    by reflexivity.
  assert (db_list_collection_names live_db = Done twelve_collections)
    as Hlist by reflexivity.
  split; [by repeat split|].
  destruct (@diagnostics_collections ascii_str_slice (Done (Some live_db))
              sample_env) as (_ & _ & Htake & _).
  exact (Htake live_db _ _ eq_refl Hname Hlist).
Defined.

(** X13. The response reports [Connected] exactly when the module was
    imported with a database object whose name lookup returned, and
    [Connected & Working] exactly when, in addition, the collections
    could be listed; so a working database is always a connected one. *)
Theorem diagnostics_status `{StrSlice}
    (import_db : attempt (option DbHandle))
    (getenv : string → option string) :
  (connection_status (test_database import_db getenv) = "Connected"
   ∨ connection_status (test_database import_db getenv) = "Not Connected")
  ∧ (connection_status (test_database import_db getenv) = "Connected" ↔
     ∃ db name, import_db = Done (Some db) ∧ name_lookup db = Done name)
  ∧ (database (test_database import_db getenv) = "✅ Connected & Working" ↔
     ∃ db name names,
       import_db = Done (Some db) ∧ name_lookup db = Done name
       ∧ db_list_collection_names db = Done names)
  ∧ (database (test_database import_db getenv) = "✅ Connected & Working" →
     connection_status (test_database import_db getenv) = "Connected").
Proof.
  unfold test_database. simpl.
  destruct (probe_database_cases import_db
              {| backend := "✅ Running";
                 database := "❌ Not Available";
                 database_url := None;
                 database_name := PyNone;
                 connection_status := "Not Connected";
                 collections := [] |})
    as [(db & name & names & -> & Hname & Hlist & ->)
       |[(db & name & e & -> & Hname & Hlist & ->)
        |(Hfail & _ & Hstatus & _ & Hdb)]]; simpl.
  - split; [by left|]. split; [|split; [|done]].
    + split; [|done]. intros _. by exists db, name.
    + split; [|done]. intros _. by exists db, name, names.
  - split; [by left|]. split; [|split].
    + split; [|done]. intros _. by exists db, name.
    + split; [intros Hd; discriminate Hd|].
      intros (db' & _ & names & [= <-] & _ & Hlist').
      rewrite Hlist in Hlist'. discriminate Hlist'.
    + done.
  - rewrite Hstatus. simpl. split; [by right|]. split; [|split].
    + split; [intros Hc; discriminate Hc|].
      intros (db & name & -> & Hname).
      destruct (Hfail db eq_refl) as [e He]. rewrite He in Hname.
      discriminate Hname.
    + split; [by intros Hd; destruct Hdb|].
      intros (db & name & names & -> & Hname & _).
      destruct (Hfail db eq_refl) as [e He]. rewrite He in Hname.
      discriminate Hname.
    + by intros Hd; destruct Hdb.
Qed.

Lemma diagnostics_status_witness :
  database (@test_database ascii_str_slice (Done (Some live_db)) sample_env)
  = "✅ Connected & Working"
  ∧ connection_status (@test_database ascii_str_slice (Done (Some live_db))
                         sample_env) = "Connected".
Proof.
  assert (database (@test_database ascii_str_slice (Done (Some live_db))
                      sample_env) = "✅ Connected & Working") as Hd
    by reflexivity.
  destruct (@diagnostics_status ascii_str_slice (Done (Some live_db))
              sample_env) as (_ & _ & _ & Himp).
  exact (conj Hd (Himp Hd)).
Defined.

(** ** The request boundary *)





